(** * esp-idf-perfmon: the run-time statistics monitor of [stats.c]

    A shallow embedding of the accumulator table, the snapshot reconciler
    ([print_real_time_stats]) and the stopwatch helpers of [stats.c],
    followed by the properties proved about them.

    Conventions of the embedding:
    - a C pointer is its address, a [Z]; [NULL] is address 0.  Pointers are
      only ever compared, never dereferenced as data, except for the result
      of [get_accumulated_info], which is modelled as the index of the slot
      it points to ([None] for [NULL]);
    - [uint8_t], [uint32_t] and [uint64_t] values are [Z] with the
      wrap-around written out ([wrap8], [wrap32], [wrap64]); [unsigned long]
      is 32 bits wide, as on every ESP32 target;
    - the static array [s_accumulated_infos] is a [list] of
      [ACCUMULATED_INFO_NUM] slots, read with [!!!] and written with
      [<[i:=x]>]; every [for] loop over it is a recursion on the number of
      iterations left, carrying the loop index;
    - what the code prints or logs is collected in a list of [event]s;
    - an operation C leaves undefined ends the call with a [Fault].  The
      read through [res] happens where the source has it; a division by
      zero traps where the build puts it, which a [trap_point] names. *)

From Stdlib Require Import ZArith Lia String.
From stdpp Require Import base numbers list.

(** ** Machine integers and pointers *)

Definition wrap8 (z : Z) : Z := (z mod 2 ^ 8)%Z.
Definition wrap32 (z : Z) : Z := (z mod 2 ^ 32)%Z.
Definition wrap64 (z : Z) : Z := (z mod 2 ^ 64)%Z.

Abbreviation ptr := Z.
Definition NULL : ptr := 0%Z.

(** ** Output events *)

Inductive log_level := LOGE | LOGI.

(** [PrintRow], [PrintDeleted] and [PrintCreated] carry the arguments handed
    to [printf]; the leading naturals are the positions in [start_array] and
    [end_array] of the entries the line is about.  They are not printed: they
    only identify the entry in statements about the report. *)
Inductive event :=
| Log (lvl : log_level) (msg : string)
| PrintHeader
| PrintRow (i k : nat) (name : ptr) (task_elapsed_time res_time percentage_time : Z)
| PrintDeleted (i : nat) (name : ptr)
| PrintCreated (j : nat) (name : ptr).

(** ** The accumulator table *)

Definition ACCUMULATED_INFO_NUM : nat := 16.

Record accumulated_info_t := {
  task_name : ptr;
  time : Z;
  is_running : bool
}.

#[global] Instance accumulated_info_inhabited : Inhabited accumulated_info_t :=
  populate {| task_name := NULL; time := 0; is_running := false |}.

Abbreviation table := (list accumulated_info_t).

(** A zero-initialised static array. *)
Definition initial_table : table :=
  replicate ACCUMULATED_INFO_NUM {| task_name := NULL; time := 0; is_running := false |}.

Fixpoint reset_loop (fuel i : nat) (s : table) : table :=
  match fuel with
  | O => s
  | S fuel' =>
      reset_loop fuel' (S i)
        (<[i := {| task_name := NULL; time := 0; is_running := false |}]> s)
  end.

Definition stats_reset_accumulated_infos (s : table) : table * list event :=
  (reset_loop ACCUMULATED_INFO_NUM 0 s, [Log LOGI "reseted accumulated infos"]).

(** The tail of [set_accumulated_info], after the loop found no slot with
    the name. *)
Definition set_after_loop (dst_idx : Z) (info : accumulated_info_t) (s : table)
  : table * list event :=
  if (dst_idx =? 255)%Z then
    (s, [Log LOGE "error: accumulated info's buffer is full"])
  else
    (<[Z.to_nat dst_idx :=
         {| task_name := task_name info; time := time info; is_running := true |}]> s,
     []).

Fixpoint set_loop (fuel i : nat) (dst_idx : Z) (info : accumulated_info_t) (s : table)
  : table * list event :=
  match fuel with
  | O => set_after_loop dst_idx info s
  | S fuel' =>
      let e := s !!! i in
      if (task_name e =? task_name info)%Z then
        (<[i := {| task_name := task_name e;
                   time := wrap64 (time e + time info);
                   is_running := true |}]> s, [])
      else if (task_name e =? NULL)%Z && (dst_idx =? 255)%Z then
        set_loop fuel' (S i) (wrap8 (Z.of_nat i)) info s
      else
        set_loop fuel' (S i) dst_idx info s
  end.

Definition set_accumulated_info (info : accumulated_info_t) (s : table)
  : table * list event :=
  set_loop ACCUMULATED_INFO_NUM 0 255 info s.

(** [get_accumulated_info] returns [&s_accumulated_infos[i]] or [NULL]: the
    index of the slot, or [None]. *)
Fixpoint get_loop (fuel i : nat) (name : ptr) (s : table) : option nat :=
  match fuel with
  | O => None
  | S fuel' =>
      if (task_name (s !!! i) =? name)%Z then Some i
      else get_loop fuel' (S i) name s
  end.

Definition get_accumulated_info (name : ptr) (s : table) : option nat :=
  get_loop ACCUMULATED_INFO_NUM 0 name s.

Fixpoint end_calc_loop (fuel i : nat) (s : table) : table :=
  match fuel with
  | O => s
  | S fuel' =>
      let e := s !!! i in
      end_calc_loop fuel' (S i)
        (if negb (is_running e) then
           <[i := {| task_name := NULL; time := 0; is_running := is_running e |}]> s
         else
           <[i := {| task_name := task_name e; time := time e; is_running := false |}]> s)
  end.

Definition end_calc_accumulated_info (s : table) : table :=
  end_calc_loop ACCUMULATED_INFO_NUM 0 s.

(** ** Snapshots *)

(** The fields of FreeRTOS's [TaskStatus_t] that [stats.c] reads or writes;
    priority, state and the others are never touched. *)
Record TaskStatus_t := {
  xHandle : ptr;
  pcTaskName : ptr;
  ulRunTimeCounter : Z
}.

#[global] Instance TaskStatus_inhabited : Inhabited TaskStatus_t :=
  populate {| xHandle := NULL; pcTaskName := NULL; ulRunTimeCounter := 0 |}.

(** [array[i].xHandle = h] *)
Definition set_xHandle (h : ptr) (t : TaskStatus_t) : TaskStatus_t :=
  {| xHandle := h; pcTaskName := pcTaskName t; ulRunTimeCounter := ulRunTimeCounter t |}.

(** One capture of the task table, as the environment delivers it: whether
    [malloc] returned a buffer, the entries [uxTaskGetSystemState] wrote
    (their number is its return value, 0 when the buffer was too small) and
    the total run time it stored. *)
Record capture := {
  malloc_ok : bool;
  task_array : list TaskStatus_t;
  run_time : Z
}.

Inductive esp_err_t :=
| ESP_OK
| ESP_ERR_NO_MEM
| ESP_ERR_INVALID_SIZE
| ESP_ERR_INVALID_STATE.

(** How a call ends: it returns, or it traps on an operation C leaves
    undefined (reading through a [NULL] pointer, dividing by zero). *)
Inductive fault := NullDereference | DivisionByZero.

Inductive outcome :=
| Returned (ret : esp_err_t)
| Fault (f : fault).

(** Where the compiled code raises the trap of a division by zero.  C
    leaves the division that computes [percentage_time] undefined when the
    divisor is 0, and the quotient is used by nothing before the [printf]
    of the row: the trap is raised at the division itself, or after
    [set_accumulated_info] has updated the table, before or after
    [res->time] is read for that [printf]. *)
Inductive trap_point := TrapAtDivision | TrapBeforeRead | TrapAfterRead.

Definition trap_point_eqb (a b : trap_point) : bool :=
  match a, b with
  | TrapAtDivision, TrapAtDivision => true
  | TrapBeforeRead, TrapBeforeRead => true
  | TrapAfterRead, TrapAfterRead => true
  | _, _ => false
  end.

(** ** The reconciler *)

(** The mutable state of the matching loops. *)
Record pass_state := {
  start_array : list TaskStatus_t;
  end_array : list TaskStatus_t;
  infos : table;
  output : list event
}.

(** The inner [for (j ...)] loop: the value of [k] at its end ([None] is -1). *)
Fixpoint find_handle_loop (fuel j : nat) (h : ptr) (end_arr : list TaskStatus_t)
  : option nat :=
  match fuel with
  | O => None
  | S fuel' =>
      if (h =? xHandle (end_arr !!! j))%Z then Some j
      else find_handle_loop fuel' (S j) h end_arr
  end.

Section Reconciler.

(** [portNUM_PROCESSORS] comes from the FreeRTOS port headers. *)
Variable portNUM_PROCESSORS : Z.

(** The build decides where a division by zero traps. *)
Variable division_trap : trap_point.

(** One iteration of the outer matching loop.  A pass that traps reports
    the state the trap left: the table and the output as they were when it
    was raised. *)
Definition match_body (total_elapsed_time : Z) (i : nat) (st : pass_state)
  : pass_state + (fault * pass_state) :=
  match find_handle_loop (length (end_array st)) 0
          (xHandle (start_array st !!! i)) (end_array st) with
  | None => inl st
  | Some k =>
      let start' := <[i := set_xHandle NULL (start_array st !!! i)]> (start_array st) in
      let end' := <[k := set_xHandle NULL (end_array st !!! k)]> (end_array st) in
      let task_elapsed_time :=
        wrap32 (ulRunTimeCounter (end' !!! k) - ulRunTimeCounter (start' !!! i)) in
      let divisor := wrap32 (total_elapsed_time * portNUM_PROCESSORS) in
      let st1 := {| start_array := start'; end_array := end';
                    infos := infos st; output := output st |} in
      if (divisor =? 0)%Z && trap_point_eqb division_trap TrapAtDivision
      then inr (DivisionByZero, st1)
      else
        let percentage_time := (wrap32 (task_elapsed_time * 100) / divisor)%Z in
        let buf := {| task_name := pcTaskName (start' !!! i);
                      time := task_elapsed_time;
                      is_running := false |} in
        let '(infos', logged) := set_accumulated_info buf (infos st) in
        let st2 := {| start_array := start'; end_array := end';
                      infos := infos'; output := output st ++ logged |} in
        if (divisor =? 0)%Z && trap_point_eqb division_trap TrapBeforeRead
        then inr (DivisionByZero, st2)
        else
          match get_accumulated_info (pcTaskName (start' !!! i)) infos' with
          | None => inr (NullDereference, st2)
          | Some r =>
              if (divisor =? 0)%Z then inr (DivisionByZero, st2)
              else
                inl {| start_array := start'; end_array := end'; infos := infos';
                       output := output st ++ logged ++
                         [PrintRow i k (pcTaskName (start' !!! i)) task_elapsed_time
                            (time (infos' !!! r)) percentage_time] |}
          end
  end.

Fixpoint match_loop (fuel i : nat) (total_elapsed_time : Z) (st : pass_state)
  : pass_state + (fault * pass_state) :=
  match fuel with
  | O => inl st
  | S fuel' =>
      match match_body total_elapsed_time i st with
      | inl st' => match_loop fuel' (S i) total_elapsed_time st'
      | inr f => inr f
      end
  end.

Fixpoint deleted_loop (fuel i : nat) (start_arr : list TaskStatus_t) : list event :=
  match fuel with
  | O => []
  | S fuel' =>
      (if (xHandle (start_arr !!! i) =? NULL)%Z then []
       else [PrintDeleted i (pcTaskName (start_arr !!! i))])
      ++ deleted_loop fuel' (S i) start_arr
  end.

Fixpoint created_loop (fuel i : nat) (end_arr : list TaskStatus_t) : list event :=
  match fuel with
  | O => []
  | S fuel' =>
      (if (xHandle (end_arr !!! i) =? NULL)%Z then []
       else [PrintCreated i (pcTaskName (end_arr !!! i))])
      ++ created_loop fuel' (S i) end_arr
  end.

(** [print_real_time_stats], given the two captures the environment
    delivers around [vTaskDelay] and the accumulator table; it yields how
    the call ends, the table it leaves and what it printed and logged. *)
Definition print_real_time_stats (start_cap end_cap : capture) (s : table)
  : outcome * table * list event :=
  if negb (malloc_ok start_cap) then (Returned ESP_ERR_NO_MEM, s, [])
  else if (length (task_array start_cap) =? 0)%nat then (Returned ESP_ERR_INVALID_SIZE, s, [])
  else if negb (malloc_ok end_cap) then (Returned ESP_ERR_NO_MEM, s, [])
  else if (length (task_array end_cap) =? 0)%nat then (Returned ESP_ERR_INVALID_SIZE, s, [])
  else
    let total_elapsed_time := wrap32 (run_time end_cap - run_time start_cap) in
    if (total_elapsed_time =? 0)%Z then (Returned ESP_ERR_INVALID_STATE, s, [])
    else
      let st0 := {| start_array := task_array start_cap;
                    end_array := task_array end_cap;
                    infos := s; output := [PrintHeader] |} in
      match match_loop (length (task_array start_cap)) 0 total_elapsed_time st0 with
      | inr (f, st) => (Fault f, infos st, output st)
      | inl st =>
          (Returned ESP_OK,
           end_calc_accumulated_info (infos st),
           output st
             ++ deleted_loop (length (start_array st)) 0 (start_array st)
             ++ created_loop (length (end_array st)) 0 (end_array st))
      end.

End Reconciler.

(** ** The stopwatch *)

Module Stopwatch.

Inductive stats_measure_state_t := STATS_MEASURE_STOP | STATS_MEASURE_START.

Record stats_run_time_t := {
  name : string;
  time : Z;
  start : Z;
  state : stats_measure_state_t
}.

Definition state_eqb (a b : stats_measure_state_t) : bool :=
  match a, b with
  | STATS_MEASURE_STOP, STATS_MEASURE_STOP => true
  | STATS_MEASURE_START, STATS_MEASURE_START => true
  | _, _ => false
  end.

(** [int64_t] arithmetic, two's complement. *)
Definition wrap_int64 (z : Z) : Z := ((z + 2 ^ 63) mod 2 ^ 64 - 2 ^ 63)%Z.

(** The handler is the object behind the pointer ([None] for a [NULL]
    pointer); [now] is what [esp_timer_get_time] returns. *)
Definition stats_run_time_start (now : Z) (handler : option stats_run_time_t)
  : option stats_run_time_t * list event :=
  match handler with
  | None => (None, [Log LOGE "handler is NULL"])
  | Some h =>
      if state_eqb (state h) STATS_MEASURE_START then
        (Some h, [Log LOGE "run time measurement is already started"])
      else
        (Some {| name := name h; time := time h; start := now;
                 state := STATS_MEASURE_START |}, [])
  end.

Definition stats_run_time_stop (now : Z) (handler : option stats_run_time_t)
  : option stats_run_time_t * list event :=
  match handler with
  | None => (None, [Log LOGE "handler is NULL"])
  | Some h =>
      if state_eqb (state h) STATS_MEASURE_STOP then
        (Some h, [Log LOGE "run time measurement is not started"])
      else
        (Some {| name := name h;
                 time := wrap_int64 (time h + wrap_int64 (now - start h));
                 start := start h;
                 state := STATS_MEASURE_STOP |}, [])
  end.

End Stopwatch.

(** * Vocabulary of the statements *)

(** ** The accumulator table *)

(** The static array always has [ACCUMULATED_INFO_NUM] slots. *)
Definition table_wf (s : table) : Prop := length s = ACCUMULATED_INFO_NUM.

Definition holds_name (name : ptr) (e : accumulated_info_t) : bool :=
  (task_name e =? name)%Z.

(** A slot is free when its [task_name] is [NULL]. *)
Definition is_free (e : accumulated_info_t) : bool := (task_name e =? NULL)%Z.

(** The first position at or after [i], among [fuel] of them, whose element
    satisfies [P]: the shape shared by the search loops of [stats.c]. *)
Fixpoint first_from {A} `{!Inhabited A} (P : A → bool) (fuel i : nat) (l : list A)
  : option nat :=
  match fuel with
  | O => None
  | S fuel' => if P (l !!! i) then Some i else first_from P fuel' (S i) l
  end.

Definition first_index {A} `{!Inhabited A} (P : A → bool) (l : list A) : option nat :=
  first_from P (length l) 0 l.

(** No two slots hold the same non-[NULL] name. *)
Definition names_unique (s : table) : Prop :=
  ∀ i j, i < length s → j < length s →
    task_name (s !!! i) = task_name (s !!! j) →
    task_name (s !!! i) ≠ NULL → i = j.

(** The operations of the table, for statements about sequences of them. *)
Inductive table_op :=
| OpRecord (info : accumulated_info_t)
| OpEndPass
| OpResetAll.

Definition run_op (o : table_op) (s : table) : table :=
  match o with
  | OpRecord info => (set_accumulated_info info s).1
  | OpEndPass => end_calc_accumulated_info s
  | OpResetAll => (stats_reset_accumulated_infos s).1
  end.

Definition op_ok (o : table_op) : Prop :=
  match o with
  | OpRecord info => task_name info ≠ NULL
  | _ => True
  end.

(** The slot [e] after [info->time] was added to it. *)
Definition updated_slot (e info : accumulated_info_t) : accumulated_info_t :=
  {| task_name := task_name e; time := wrap64 (time e + time info); is_running := true |}.

(** The record a free slot becomes. *)
Definition created_slot (info : accumulated_info_t) : accumulated_info_t :=
  {| task_name := task_name info; time := time info; is_running := true |}.

(** What the end-of-pass sweep makes of a slot. *)
Definition end_slot (e : accumulated_info_t) : accumulated_info_t :=
  if is_running e then {| task_name := task_name e; time := time e; is_running := false |}
  else {| task_name := NULL; time := 0; is_running := false |}.

(** An empty slot. *)
Definition cleared_slot : accumulated_info_t :=
  {| task_name := NULL; time := 0; is_running := false |}.

(** ** Sample inputs *)

(** Sixteen occupied slots, named 100 .. 115. *)
Definition full_table : table :=
  (λ i, {| task_name := (100 + Z.of_nat i)%Z; time := 10; is_running := false |})
    <$> seq 0 ACCUMULATED_INFO_NUM.

(** Two occupied slots, the first seen in the current pass, the second not. *)
Definition two_tasks_table : table :=
  {| task_name := 100; time := 40; is_running := true |}
  :: {| task_name := 101; time := 70; is_running := false |}
  :: replicate 14 cleared_slot.

(** Case analysis on a slot index [j] bounded by [Hj]. *)
Ltac each_slot j Hj :=
  first [ exfalso; vm_compute in Hj; lia
        | destruct j as [|j];
          [vm_compute; try split; congruence | each_slot j Hj] ].

Definition task (h name counter : Z) : TaskStatus_t :=
  {| xHandle := h; pcTaskName := name; ulRunTimeCounter := counter |}.

Definition captured (l : list TaskStatus_t) (ticks : Z) : capture :=
  {| malloc_ok := true; task_array := l; run_time := ticks |}.

(** [n] tasks with handles 1000, 1001, ... and names 2000, 2001, ..., every
    run-time counter equal to [counter]. *)
Definition n_tasks (n : nat) (counter : Z) : list TaskStatus_t :=
  (λ i, task (1000 + Z.of_nat i) (2000 + Z.of_nat i) counter) <$> seq 0 n.

(** ** The report of a pass *)

(** What a printed line says about a task entry. *)
Inductive verdict :=
| Matched (i k : nat)
| Ended (i : nat)
| Created (k : nat).

Definition verdict_of (ev : event) : option verdict :=
  match ev with
  | PrintRow i k _ _ _ _ => Some (Matched i k)
  | PrintDeleted i _ => Some (Ended i)
  | PrintCreated k _ => Some (Created k)
  | _ => None
  end.

Definition verdicts (out : list event) : list verdict := omap verdict_of out.

(** The verdict is about entry [i] of the start snapshot. *)
Definition on_start (i : nat) (v : verdict) : bool :=
  match v with
  | Matched i' _ | Ended i' => (i =? i')%nat
  | Created _ => false
  end.

(** The verdict is about entry [k] of the end snapshot. *)
Definition on_end (k : nat) (v : verdict) : bool :=
  match v with
  | Matched _ k' | Created k' => (k =? k')%nat
  | Ended _ => false
  end.

(** Handles of live tasks are distinct and never [NULL]. *)
Definition handles_wf (l : list TaskStatus_t) : Prop :=
  NoDup (xHandle <$> l) ∧ NULL ∉ xHandle <$> l.

(** The end-snapshot position of the task with handle [h], if any. *)
Definition partner (end_arr : list TaskStatus_t) (h : ptr) : option nat :=
  first_index (λ e, (h =? xHandle e)%Z) end_arr.

(** Two arrays agree on everything but the handles. *)
Definition same_data (l1 l2 : list TaskStatus_t) : Prop :=
  length l1 = length l2
  ∧ ∀ j, pcTaskName (l1 !!! j) = pcTaskName (l2 !!! j)
         ∧ ulRunTimeCounter (l1 !!! j) = ulRunTimeCounter (l2 !!! j).

(** What a printed row must satisfy with respect to the two snapshots. *)
Definition row_ok (P total : Z) (S0 E0 : list TaskStatus_t) (ev : event) : Prop :=
  match ev with
  | PrintRow i k name el _ pct =>
      i < length S0 ∧ k < length E0
      ∧ name = pcTaskName (S0 !!! i)
      ∧ el = wrap32 (ulRunTimeCounter (E0 !!! k) - ulRunTimeCounter (S0 !!! i))
      ∧ wrap32 (total * P) ≠ 0%Z
      ∧ pct = (wrap32 (el * 100) / wrap32 (total * P))%Z
  | _ => True
  end.

(** The invariant of the matching loop behind [row_ok]. *)
Definition pass_ok (P total : Z) (S0 E0 : list TaskStatus_t) (st : pass_state) : Prop :=
  same_data (start_array st) S0
  ∧ same_data (end_array st) E0
  ∧ Forall (row_ok P total S0 E0) (output st).

(** The state a loop ends in, whether it finished or trapped. *)
Definition final_state (r : pass_state + fault * pass_state) : pass_state :=
  match r with
  | inl st => st
  | inr (_, st) => st
  end.

(** The state of the matching loop before iteration [i], in terms of the
    two snapshots as captured: which handles have been overwritten and which
    rows have been printed. *)
Definition class_inv (S0 E0 : list TaskStatus_t) (i : nat) (st : pass_state) : Prop :=
  length (start_array st) = length S0
  ∧ length (end_array st) = length E0
  ∧ (∀ j, j < length S0 →
       xHandle (start_array st !!! j)
       = if decide (j < i ∧ xHandle (S0 !!! j) ∈ xHandle <$> E0)
         then NULL else xHandle (S0 !!! j))
  ∧ (∀ k, k < length E0 →
       xHandle (end_array st !!! k)
       = if decide (xHandle (E0 !!! k) ∈ xHandle <$> take i S0)
         then NULL else xHandle (E0 !!! k))
  ∧ verdicts (output st)
    = omap (λ j, Matched j <$> partner E0 (xHandle (S0 !!! j))) (seq 0 i).

(** * Further vocabulary *)

(** ** Reading the accumulator table *)

(** The record [get_accumulated_info] points to, if it finds one. *)
Definition record_of (name : ptr) (s : table) : option accumulated_info_t :=
  (λ r, s !!! r) <$> get_accumulated_info name s.

(** No slot holds the name and no slot is free. *)
Definition table_full (name : ptr) (s : table) : Prop :=
  ∀ j, j < length s →
    task_name (s !!! j) ≠ name ∧ task_name (s !!! j) ≠ NULL.

(** No slot carries the [is_running] mark. *)
Definition all_idle (s : table) : Prop :=
  ∀ j, j < length s → is_running (s !!! j) = false.

(** Every free slot is zeroed. *)
Definition slots_clean (s : table) : Prop :=
  ∀ j, j < length s →
    task_name (s !!! j) = NULL →
    time (s !!! j) = 0%Z ∧ is_running (s !!! j) = false.

(** The number of free slots. *)
Definition count_free (s : table) : nat := length (List.filter is_free s).

(** ** Reading the report *)

(** The names on the rows of a report, in order. *)
Definition row_names (out : list event) : list ptr :=
  omap (λ ev, match ev with
              | PrintRow _ _ name _ _ _ => Some name
              | _ => None
              end) out.

(** The total a row shows for [name] after [el] more ticks, given the table
    the pass started from. *)
Definition accumulated (s : table) (name : ptr) (el : Z) : Z :=
  match record_of name s with
  | Some e => wrap64 (time e + el)
  | None => el
  end.

(** Every marked slot belongs to a name that has a row. *)
Definition marks_explained (st : pass_state) : Prop :=
  ∀ j, j < length (infos st) → is_running (infos st !!! j) = true →
    task_name (infos st !!! j) ∈ row_names (output st).

(** The state of the matching loop before iteration [i], as far as the
    accumulator table is concerned; [S0] is the start snapshot as captured
    and [s] the table the pass started from. *)
Definition acc_inv (S0 : list TaskStatus_t) (s : table) (i : nat) (st : pass_state)
  : Prop :=
  table_wf (infos st)
  ∧ (∀ j, pcTaskName (start_array st !!! j) = pcTaskName (S0 !!! j))
  ∧ (∀ i' k name el acc pct,
       PrintRow i' k name el acc pct ∈ output st →
       i' < i ∧ name = pcTaskName (S0 !!! i') ∧ acc = accumulated s name el
       ∧ record_of name (infos st)
         = Some {| task_name := name; time := acc; is_running := true |})
  ∧ (∀ name, name ≠ NULL →
       (∀ i', i' < i → pcTaskName (S0 !!! i') ≠ name) →
       record_of name (infos st) = record_of name s).

(** ** Using the stopwatch *)

(** A caller that measures the intervals [(t1, t2)] one after the other:
    [stats_run_time_start] at [t1], [stats_run_time_stop] at [t2]. *)
Fixpoint measure_cycles (cycles : list (Z * Z))
    (handler : option Stopwatch.stats_run_time_t)
  : option Stopwatch.stats_run_time_t * list event :=
  match cycles with
  | [] => (handler, [])
  | (t1, t2) :: rest =>
      let '(h1, l1) := Stopwatch.stats_run_time_start t1 handler in
      let '(h2, l2) := Stopwatch.stats_run_time_stop t2 h1 in
      let '(h3, l3) := measure_cycles rest h2 in
      (h3, l1 ++ l2 ++ l3)
  end.

(** The sum of the measured intervals. *)
Definition total_duration (cycles : list (Z * Z)) : Z :=
  foldr (λ c acc, (c.2 - c.1 + acc)%Z) 0%Z cycles.

(** * Auxiliary facts *)

(** ** Search loops *)

Section FirstFrom.
Context {A : Type} `{!Inhabited A} (P : A → bool).

Lemma first_from_Some fuel i (l : list A) r :
  first_from P fuel i l = Some r →
  i ≤ r < i + fuel ∧ P (l !!! r) = true ∧ ∀ j, i ≤ j < r → P (l !!! j) = false.
Proof.
  revert i. induction fuel as [|fuel IH]; intros i; simpl; [done|].
  destruct (P (l !!! i)) eqn:Hi.
  - intros [= <-]. repeat split; [lia..| done |intros; lia].
  - intros Hr. destruct (IH _ Hr) as (Hb & HP & Hlt).
    repeat split; [lia..| done |].
    intros j Hj. destruct (decide (j = i)) as [->|]; [done|]. apply Hlt. lia.
Qed.

Lemma first_from_None fuel i (l : list A) :
  first_from P fuel i l = None → ∀ j, i ≤ j < i + fuel → P (l !!! j) = false.
Proof.
  revert i. induction fuel as [|fuel IH]; intros i; simpl; [intros; lia|].
  destruct (P (l !!! i)) eqn:Hi; [done|].
  intros Hn j Hj. destruct (decide (j = i)) as [->|]; [done|].
  apply (IH _ Hn). lia.
Qed.

Lemma first_from_is_Some fuel i (l : list A) r :
  i ≤ r < i + fuel → P (l !!! r) = true →
  (∀ j, i ≤ j < r → P (l !!! j) = false) →
  first_from P fuel i l = Some r.
Proof.
  intros Hr HP Hlt. destruct (first_from P fuel i l) as [r'|] eqn:Hf.
  - apply first_from_Some in Hf as (Hb & HP' & Hlt'). f_equal.
    destruct (Nat.lt_trichotomy r' r) as [?|[?|?]]; [|done|].
    + rewrite Hlt in HP' by lia. done.
    + rewrite Hlt' in HP by lia. done.
  - rewrite (first_from_None _ _ _ Hf) in HP by lia. done.
Qed.

Lemma first_from_is_None fuel i (l : list A) :
  (∀ j, i ≤ j < i + fuel → P (l !!! j) = false) → first_from P fuel i l = None.
Proof.
  intros Hall. destruct (first_from P fuel i l) as [r|] eqn:Hf; [|done].
  apply first_from_Some in Hf as (Hb & HP & _). rewrite Hall in HP by lia. done.
Qed.

End FirstFrom.

Lemma get_loop_first_from fuel i name (s : table) :
  get_loop fuel i name s = first_from (holds_name name) fuel i s.
Proof.
  revert i. induction fuel as [|fuel IH]; intros i; simpl; [done|].
  unfold holds_name at 1. by rewrite IH.
Qed.

Lemma get_accumulated_info_first_index name (s : table) :
  table_wf s → get_accumulated_info name s = first_index (holds_name name) s.
Proof.
  intros Hwf. unfold get_accumulated_info, first_index.
  rewrite Hwf. apply get_loop_first_from.
Qed.

Lemma find_handle_loop_first_from fuel j h (l : list TaskStatus_t) :
  find_handle_loop fuel j h l = first_from (λ e, (h =? xHandle e)%Z) fuel j l.
Proof.
  revert j. induction fuel as [|fuel IH]; intros j; simpl; [done|]. by rewrite IH.
Qed.

(** ** [set_accumulated_info] as a function of the two searches *)

Lemma set_loop_eq fuel i dst info (s : table) :
  i + fuel ≤ 255 →
  set_loop fuel i dst info s =
    match first_from (holds_name (task_name info)) fuel i s with
    | Some r => (<[r := updated_slot (s !!! r) info]> s, [])
    | None =>
        set_after_loop
          (if (dst =? 255)%Z then
             match first_from is_free fuel i s with
             | Some d => Z.of_nat d
             | None => 255%Z
             end
           else dst) info s
    end.
Proof.
  revert i dst. induction fuel as [|fuel IH]; intros i dst Hle; simpl.
  { by destruct (dst =? 255)%Z eqn:E; [apply Z.eqb_eq in E; subst|]. }
  unfold holds_name at 1. destruct (task_name (s !!! i) =? task_name info)%Z; [done|].
  unfold is_free at 1.
  destruct (task_name (s !!! i) =? NULL)%Z; simpl.
  - destruct (dst =? 255)%Z eqn:E; simpl.
    + rewrite IH by lia. unfold wrap8.
      rewrite Z.mod_small by lia.
      assert ((Z.of_nat i =? 255)%Z = false) as -> by (apply Z.eqb_neq; lia).
      done.
    + rewrite IH by lia. by rewrite E.
  - rewrite IH by lia. done.
Qed.

Lemma set_accumulated_info_eq info (s : table) :
  table_wf s →
  set_accumulated_info info s =
    match first_index (holds_name (task_name info)) s with
    | Some r => (<[r := updated_slot (s !!! r) info]> s, [])
    | None =>
        match first_index is_free s with
        | Some d => (<[d := created_slot info]> s, [])
        | None => (s, [Log LOGE "error: accumulated info's buffer is full"])
        end
    end.
Proof.
  intros Hwf. unfold set_accumulated_info, first_index. rewrite Hwf.
  rewrite set_loop_eq by (unfold ACCUMULATED_INFO_NUM; lia).
  destruct (first_from (holds_name (task_name info)) ACCUMULATED_INFO_NUM 0 s); [done|].
  rewrite Z.eqb_refl.
  destruct (first_from is_free ACCUMULATED_INFO_NUM 0 s) as [d|] eqn:Hd; [|done].
  apply first_from_Some in Hd as (Hb & _). unfold ACCUMULATED_INFO_NUM in Hb.
  unfold set_after_loop.
  assert ((Z.of_nat d =? 255)%Z = false) as -> by (apply Z.eqb_neq; lia).
  by rewrite Nat2Z.id.
Qed.

(** ** Facts about [first_index] and array equality *)

Section FirstIndex.
Context {A : Type} `{!Inhabited A} (P : A → bool).

Lemma first_index_Some (l : list A) r :
  first_index P l = Some r →
  r < length l ∧ P (l !!! r) = true ∧ ∀ j, j < r → P (l !!! j) = false.
Proof.
  intros H. apply first_from_Some in H as (Hb & HP & Hlt).
  repeat split; [lia | done |]. intros j Hj. apply Hlt. lia.
Qed.

Lemma first_index_None (l : list A) :
  first_index P l = None → ∀ j, j < length l → P (l !!! j) = false.
Proof. intros H j Hj. apply (first_from_None _ _ _ _ H). lia. Qed.

Lemma first_index_is_Some (l : list A) r :
  r < length l → P (l !!! r) = true → (∀ j, j < r → P (l !!! j) = false) →
  first_index P l = Some r.
Proof.
  intros Hr HP Hlt. apply first_from_is_Some; [lia | done |].
  intros j Hj. apply Hlt. lia.
Qed.

Lemma first_index_is_None (l : list A) :
  (∀ j, j < length l → P (l !!! j) = false) → first_index P l = None.
Proof. intros H. apply first_from_is_None. intros j Hj. apply H. lia. Qed.

Lemma list_eq_total (l1 l2 : list A) :
  length l1 = length l2 → (∀ i, i < length l1 → l1 !!! i = l2 !!! i) → l1 = l2.
Proof.
  intros Hlen Hall. apply (list_eq_same_length _ _ (length l1)); [done..|].
  intros i x y Hi Hx Hy.
  apply list_lookup_total_correct in Hx, Hy. rewrite <-Hx, <-Hy. by apply Hall.
Qed.

End FirstIndex.

(** ** A full table *)

Lemma set_accumulated_info_full info (s : table) :
  table_wf s →
  (∀ j, j < length s →
     task_name (s !!! j) ≠ task_name info ∧ task_name (s !!! j) ≠ NULL) →
  set_accumulated_info info s
  = (s, [Log LOGE "error: accumulated info's buffer is full"]).
Proof.
  intros Hwf Hfull. rewrite set_accumulated_info_eq by done.
  rewrite (first_index_is_None (holds_name (task_name info)) s).
  2: { intros j Hj. unfold holds_name. apply Z.eqb_neq. by apply Hfull. }
  rewrite (first_index_is_None is_free s); [done|].
  intros j Hj. unfold is_free. apply Z.eqb_neq. by apply Hfull.
Qed.

Lemma get_accumulated_info_absent name (s : table) :
  table_wf s → (∀ j, j < length s → task_name (s !!! j) ≠ name) →
  get_accumulated_info name s = None.
Proof.
  intros Hwf Habsent. rewrite get_accumulated_info_first_index by done.
  apply first_index_is_None. intros j Hj. unfold holds_name.
  apply Z.eqb_neq. by apply Habsent.
Qed.

(** ** The loops that rewrite every slot *)

Lemma end_calc_loop_length fuel i (s : table) :
  length (end_calc_loop fuel i s) = length s.
Proof.
  revert i s. induction fuel as [|fuel IH]; intros i s; simpl; [done|].
  rewrite IH. destruct (negb _); apply length_insert.
Qed.

Lemma end_calc_loop_lookup fuel i (s : table) j :
  j < length s →
  end_calc_loop fuel i s !!! j =
    if decide (i ≤ j < i + fuel) then end_slot (s !!! j) else s !!! j.
Proof.
  revert i s. induction fuel as [|fuel IH]; intros i s Hj; simpl.
  { case_decide; [lia|done]. }
  rewrite IH by (destruct (negb _); by rewrite length_insert).
  destruct (decide (j = i)) as [->|Hne].
  - rewrite decide_False by lia. rewrite decide_True by lia.
    unfold end_slot. destruct (is_running (s !!! i)) eqn:E; simpl;
      by rewrite list_lookup_total_insert_eq.
  - assert (∀ x, <[i:=x]> s !!! j = s !!! j) as Hins
      by (intros; by apply list_lookup_total_insert_ne).
    destruct (negb _); rewrite Hins; repeat case_decide; done || lia.
Qed.

Lemma end_calc_lookup (s : table) j :
  table_wf s → j < length s → end_calc_accumulated_info s !!! j = end_slot (s !!! j).
Proof.
  intros Hwf Hj. unfold end_calc_accumulated_info.
  rewrite end_calc_loop_lookup by done. rewrite decide_True; [done|].
  rewrite Hwf in Hj. lia.
Qed.

Lemma end_calc_wf (s : table) : table_wf s → table_wf (end_calc_accumulated_info s).
Proof. unfold table_wf, end_calc_accumulated_info. by rewrite end_calc_loop_length. Qed.

Lemma reset_loop_length fuel i (s : table) : length (reset_loop fuel i s) = length s.
Proof.
  revert i s. induction fuel as [|fuel IH]; intros i s; simpl; [done|].
  rewrite IH. apply length_insert.
Qed.

Lemma reset_loop_lookup fuel i (s : table) j :
  j < length s →
  reset_loop fuel i s !!! j = if decide (i ≤ j < i + fuel) then cleared_slot else s !!! j.
Proof.
  revert i s. induction fuel as [|fuel IH]; intros i s Hj; simpl.
  { case_decide; [lia|done]. }
  rewrite IH by (by rewrite length_insert).
  destruct (decide (j = i)) as [->|Hne].
  - rewrite decide_False by lia. rewrite decide_True by lia.
    by rewrite list_lookup_total_insert_eq.
  - rewrite list_lookup_total_insert_ne by done. repeat case_decide; done || lia.
Qed.

Lemma reset_lookup (s : table) j :
  table_wf s → j < length s → (stats_reset_accumulated_infos s).1 !!! j = cleared_slot.
Proof.
  intros Hwf Hj.
  change (stats_reset_accumulated_infos s).1 with (reset_loop ACCUMULATED_INFO_NUM 0 s).
  rewrite reset_loop_lookup by done. rewrite decide_True; [done|].
  rewrite Hwf in Hj. lia.
Qed.

Lemma reset_wf (s : table) : table_wf s → table_wf (stats_reset_accumulated_infos s).1.
Proof.
  unfold table_wf.
  change (stats_reset_accumulated_infos s).1 with (reset_loop ACCUMULATED_INFO_NUM 0 s).
  by rewrite reset_loop_length.
Qed.

Lemma initial_table_wf : table_wf initial_table.
Proof. reflexivity. Qed.

Lemma set_accumulated_info_wf info (s : table) :
  table_wf s → table_wf (set_accumulated_info info s).1.
Proof.
  intros Hwf. rewrite set_accumulated_info_eq by done. unfold table_wf.
  destruct (first_index (holds_name (task_name info)) s); simpl.
  { by rewrite length_insert. }
  destruct (first_index is_free s); simpl; [by rewrite length_insert|done].
Qed.

(** ** Uniqueness of names, operation by operation *)

Lemma names_unique_set info (s : table) :
  table_wf s → names_unique s → names_unique (set_accumulated_info info s).1.
Proof.
  intros Hwf Hu. rewrite set_accumulated_info_eq by done.
  destruct (first_index (holds_name (task_name info)) s) as [r|] eqn:Hr; simpl.
  - apply first_index_Some in Hr as (Hrl & _ & _).
    intros i j. rewrite length_insert. intros Hi Hj.
    assert (∀ x, x < length s →
              task_name (<[r:=updated_slot (s !!! r) info]> s !!! x) = task_name (s !!! x))
      as Hsame.
    { intros x Hx. destruct (decide (r = x)) as [->|].
      - by rewrite list_lookup_total_insert_eq.
      - by rewrite list_lookup_total_insert_ne. }
    rewrite !Hsame by done. by apply Hu.
  - pose proof (first_index_None _ _ Hr) as Hnone.
    destruct (first_index is_free s) as [d|] eqn:Hd; simpl; [|done].
    apply first_index_Some in Hd as (Hdl & _ & _).
    intros i j. rewrite length_insert. intros Hi Hj.
    destruct (decide (d = i)) as [Edi|Hdi], (decide (d = j)) as [Edj|Hdj];
      [congruence|..].
    + subst i. rewrite list_lookup_total_insert_eq, list_lookup_total_insert_ne by done.
      simpl. intros Heq _. specialize (Hnone j Hj). unfold holds_name in Hnone.
      apply Z.eqb_neq in Hnone. congruence.
    + subst j. rewrite list_lookup_total_insert_eq, list_lookup_total_insert_ne by done.
      simpl. intros Heq _. specialize (Hnone i Hi). unfold holds_name in Hnone.
      apply Z.eqb_neq in Hnone. congruence.
    + rewrite !list_lookup_total_insert_ne by done. by apply Hu.
Qed.

Lemma names_unique_end_calc (s : table) :
  table_wf s → names_unique s → names_unique (end_calc_accumulated_info s).
Proof.
  intros Hwf Hu i j. unfold end_calc_accumulated_info at 1 2.
  rewrite end_calc_loop_length. intros Hi Hj.
  rewrite !end_calc_lookup by done. unfold end_slot.
  destruct (is_running (s !!! i)), (is_running (s !!! j)); simpl; try done.
  by apply Hu.
Qed.

Lemma names_unique_reset (s : table) :
  table_wf s → names_unique (stats_reset_accumulated_infos s).1.
Proof.
  intros Hwf i j. pose proof (reset_wf s Hwf) as Hwf'. unfold table_wf in Hwf, Hwf'.
  rewrite Hwf', <-Hwf. intros Hi Hj.
  rewrite !reset_lookup by done. done.
Qed.

Lemma run_op_wf o (s : table) : table_wf s → table_wf (run_op o s).
Proof.
  destruct o; simpl; [apply set_accumulated_info_wf | apply end_calc_wf | apply reset_wf].
Qed.

Lemma names_unique_run_op o (s : table) :
  table_wf s → names_unique s → names_unique (run_op o s).
Proof.
  destruct o; intros Hwf Hu.
  - by apply names_unique_set.
  - by apply names_unique_end_calc.
  - by apply names_unique_reset.
Qed.

Lemma names_unique_initial : names_unique initial_table.
Proof.
  intros i j Hi Hj _ Hne. exfalso. apply Hne.
  unfold initial_table. by rewrite lookup_total_replicate_2.
Qed.

(** * Properties of the accumulator table *)

(** C5. [set_accumulated_info] ([record(name, delta_time)]) does one of three
    things.  If a slot holds the name, the first such slot has [delta_time]
    added to its [uint64_t] time (the plain sum whenever it fits in 64 bits)
    and its [is_running] flag set, and nothing is logged.  Otherwise, if a
    slot is free, the first free slot becomes a record with the name,
    [time = delta_time] and [is_running = true].  Otherwise the table is left
    as it is and the only effect is the logged error. *)
Theorem record_three_way (s : table) (info : accumulated_info_t) :
  table_wf s →
  (∀ r, r < length s → task_name (s !!! r) = task_name info →
      (∀ j, j < r → task_name (s !!! j) ≠ task_name info) →
      set_accumulated_info info s =
        (<[r := {| task_name := task_name info;
                   time := wrap64 (time (s !!! r) + time info);
                   is_running := true |}]> s, [])
      ∧ ((0 ≤ time (s !!! r) + time info < 2 ^ 64)%Z →
         wrap64 (time (s !!! r) + time info) = (time (s !!! r) + time info)%Z))
  ∧ ((∀ j, j < length s → task_name (s !!! j) ≠ task_name info) →
     ∀ d, d < length s → task_name (s !!! d) = NULL →
       (∀ j, j < d → task_name (s !!! j) ≠ NULL) →
       set_accumulated_info info s =
         (<[d := {| task_name := task_name info; time := time info;
                    is_running := true |}]> s, []))
  ∧ ((∀ j, j < length s →
        task_name (s !!! j) ≠ task_name info ∧ task_name (s !!! j) ≠ NULL) →
     set_accumulated_info info s =
       (s, [Log LOGE "error: accumulated info's buffer is full"])).
Proof.
  intros Hwf. rewrite set_accumulated_info_eq by done. split; [|split].
  - intros r Hr Hname Hfirst. split; [|intros; by apply Z.mod_small].
    rewrite (first_index_is_Some (holds_name (task_name info)) s r); [| done | |].
    + unfold updated_slot. by rewrite Hname.
    + unfold holds_name. by apply Z.eqb_eq.
    + intros j Hj. unfold holds_name. apply Z.eqb_neq. by apply Hfirst.
  - intros Hnone d Hd Hfree Hfirst.
    rewrite (first_index_is_None (holds_name (task_name info)) s).
    2: { intros j Hj. unfold holds_name. apply Z.eqb_neq. by apply Hnone. }
    rewrite (first_index_is_Some is_free s d); [done | done | |].
    + unfold is_free. by apply Z.eqb_eq.
    + intros j Hj. unfold is_free. apply Z.eqb_neq. by apply Hfirst.
  - intros Hfull. rewrite <-set_accumulated_info_eq by done.
    by apply set_accumulated_info_full.
Qed.

Lemma record_three_way_witness :
  set_accumulated_info {| task_name := 101; time := 5; is_running := false |}
      two_tasks_table
    = (<[1%nat := {| task_name := 101; time := wrap64 (70 + 5); is_running := true |}]>
         two_tasks_table, [])
  ∧ set_accumulated_info {| task_name := 7; time := 5; is_running := false |}
      two_tasks_table
    = (<[2%nat := {| task_name := 7; time := 5; is_running := true |}]>
         two_tasks_table, [])
  ∧ set_accumulated_info {| task_name := 7; time := 5; is_running := false |}
      full_table
    = (full_table, [Log LOGE "error: accumulated info's buffer is full"]).
Proof.
  split; [|split].
  - pose proof (record_three_way two_tasks_table
                  {| task_name := 101; time := 5; is_running := false |}
                  eq_refl) as (HA & _ & _).
    apply (HA 1%nat); [simpl; lia | reflexivity |].
    intros j Hj. each_slot j Hj.
  - pose proof (record_three_way two_tasks_table
                  {| task_name := 7; time := 5; is_running := false |}
                  eq_refl) as (_ & HB & _).
    apply (HB ltac:(intros j Hj; each_slot j Hj) 2%nat); [simpl; lia | reflexivity |].
    intros j Hj. each_slot j Hj.
  - pose proof (record_three_way full_table
                  {| task_name := 7; time := 5; is_running := false |}
                  eq_refl) as (_ & _ & HC).
    apply HC. intros j Hj. each_slot j Hj.
Defined.

(** C10. When no slot holds the name and no slot is free,
    [set_accumulated_info] leaves every slot of the table as it was. *)
Theorem record_full_unchanged (s : table) (info : accumulated_info_t) :
  table_wf s →
  (∀ j, j < length s →
     task_name (s !!! j) ≠ task_name info ∧ task_name (s !!! j) ≠ NULL) →
  (set_accumulated_info info s).1 = s.
Proof.
  intros Hwf Hfull. by rewrite set_accumulated_info_full.
Qed.

Lemma record_full_unchanged_witness :
  (set_accumulated_info {| task_name := 7; time := 5; is_running := false |}
     full_table).1 = full_table.
Proof.
  apply record_full_unchanged; [reflexivity|].
  intros j Hj. each_slot j Hj.
Defined.

(** C7. When a record for the name exists, [record(name, 0)] leaves its
    accumulated time (and its name) as stored and sets its [is_running] flag;
    the lookup still finds the same slot and no other slot changes. *)
Theorem record_zero_keeps_time (s : table) (name : ptr) (b : bool) (r : nat) :
  table_wf s →
  get_accumulated_info name s = Some r →
  (0 ≤ time (s !!! r) < 2 ^ 64)%Z →
  let s' := (set_accumulated_info
               {| task_name := name; time := 0; is_running := b |} s).1 in
  get_accumulated_info name s' = Some r
  ∧ task_name (s' !!! r) = name
  ∧ time (s' !!! r) = time (s !!! r)
  ∧ is_running (s' !!! r) = true
  ∧ ∀ j, j ≠ r → s' !!! j = s !!! j.
Proof.
  intros Hwf Hget Hrange s'.
  rewrite get_accumulated_info_first_index in Hget by done.
  assert (s' = <[r := updated_slot (s !!! r)
                        {| task_name := name; time := 0; is_running := b |}]> s) as Hs'.
  { unfold s'. rewrite set_accumulated_info_eq by done. simpl. by rewrite Hget. }
  apply first_index_Some in Hget as (Hr & Hname & Hfirst).
  unfold holds_name in Hname. apply Z.eqb_eq in Hname.
  assert (table_wf s') as Hwf' by (rewrite Hs'; unfold table_wf; by rewrite length_insert).
  rewrite get_accumulated_info_first_index by done.
  rewrite Hs'. rewrite list_lookup_total_insert_eq by done. simpl.
  repeat split.
  - apply first_index_is_Some.
    + by rewrite length_insert.
    + rewrite list_lookup_total_insert_eq by done. unfold holds_name. simpl.
      by apply Z.eqb_eq.
    + intros j Hj. rewrite list_lookup_total_insert_ne by lia. by apply Hfirst.
  - done.
  - rewrite Z.add_0_r. by apply Z.mod_small.
  - intros j Hj. by rewrite list_lookup_total_insert_ne.
Qed.

Lemma record_zero_keeps_time_witness :
  let s' := (set_accumulated_info
               {| task_name := 101; time := 0; is_running := false |}
               two_tasks_table).1 in
  get_accumulated_info 101 s' = Some 1%nat
  ∧ task_name (s' !!! 1%nat) = 101%Z
  ∧ time (s' !!! 1%nat) = time (two_tasks_table !!! 1%nat)
  ∧ is_running (s' !!! 1%nat) = true
  ∧ ∀ j, j ≠ 1%nat → s' !!! j = two_tasks_table !!! j.
Proof.
  apply (record_zero_keeps_time two_tasks_table 101 false 1);
    [reflexivity | reflexivity | simpl; lia].
Defined.

(** C6. [end_calc_accumulated_info] ([end_pass]) clears every slot whose
    [is_running] flag is false (name [NULL], time 0) and keeps every slot
    whose flag is true with the flag reset to false.  Hence a lookup of a
    name all of whose records were unseen in the pass finds nothing
    afterwards. *)
Theorem end_pass_evicts_unseen (s : table) :
  table_wf s →
  table_wf (end_calc_accumulated_info s)
  ∧ (∀ i, i < length s →
       (is_running (s !!! i) = false →
        end_calc_accumulated_info s !!! i
          = {| task_name := NULL; time := 0; is_running := false |})
       ∧ (is_running (s !!! i) = true →
          end_calc_accumulated_info s !!! i
            = {| task_name := task_name (s !!! i); time := time (s !!! i);
                 is_running := false |}))
  ∧ (∀ name, name ≠ NULL →
       (∀ i, i < length s → task_name (s !!! i) = name → is_running (s !!! i) = false) →
       get_accumulated_info name (end_calc_accumulated_info s) = None).
Proof.
  intros Hwf. split; [by apply end_calc_wf|]. split.
  - intros i Hi. rewrite end_calc_lookup by done. unfold end_slot.
    split; intros ->; done.
  - intros name Hname Hunseen.
    rewrite get_accumulated_info_first_index by (by apply end_calc_wf).
    apply first_index_is_None. intros j Hj.
    pose proof (end_calc_wf s Hwf) as Hwf'. unfold table_wf in Hwf, Hwf'.
    rewrite Hwf', <-Hwf in Hj.
    rewrite end_calc_lookup by done. unfold holds_name, end_slot.
    apply Z.eqb_neq.
    destruct (is_running (s !!! j)) eqn:Hrun; simpl; [|congruence].
    intros Heq. specialize (Hunseen j Hj Heq). congruence.
Qed.

Lemma end_pass_evicts_unseen_witness :
  end_calc_accumulated_info two_tasks_table !!! 1%nat
    = {| task_name := NULL; time := 0; is_running := false |}
  ∧ end_calc_accumulated_info two_tasks_table !!! 0%nat
    = {| task_name := 100; time := 40; is_running := false |}
  ∧ get_accumulated_info 101 (end_calc_accumulated_info two_tasks_table) = None.
Proof.
  pose proof (end_pass_evicts_unseen two_tasks_table eq_refl) as (_ & Hslot & Hget).
  split; [|split].
  - apply (Hslot 1%nat); [simpl; lia | reflexivity].
  - apply (Hslot 0%nat); [simpl; lia | reflexivity].
  - apply Hget; [discriminate|].
    intros i Hi. do 2 (destruct i as [|i]; [vm_compute; congruence|]).
    intros Hname. exfalso. revert Hname.
    assert (i < 14) as Hi' by (simpl in Hi; lia).
    change (two_tasks_table !!! S (S i)) with (replicate 14 cleared_slot !!! i).
    rewrite lookup_total_replicate_2 by done. discriminate.
Defined.

(** C9. At most one slot holds any given non-[NULL] name: this holds of the
    zero-initialised table and is preserved by every sequence of
    [set_accumulated_info], [end_calc_accumulated_info] and
    [stats_reset_accumulated_infos] calls, because [set_accumulated_info]
    only fills a free slot after no slot was found to hold the name. *)
Theorem names_unique_invariant (ops : list table_op) :
  Forall op_ok ops →
  (∀ s, table_wf s → names_unique s →
     table_wf (foldl (λ s o, run_op o s) s ops)
     ∧ names_unique (foldl (λ s o, run_op o s) s ops))
  ∧ names_unique (foldl (λ s o, run_op o s) initial_table ops).
Proof.
  intros _.
  assert (∀ s, table_wf s → names_unique s →
            table_wf (foldl (λ s o, run_op o s) s ops)
            ∧ names_unique (foldl (λ s o, run_op o s) s ops)) as Hstep.
  { induction ops as [|o ops IH]; intros s Hwf Hu; simpl; [done|].
    apply IH; [by apply run_op_wf | by apply names_unique_run_op]. }
  split; [done|].
  apply Hstep; [apply initial_table_wf | apply names_unique_initial].
Qed.

Lemma names_unique_invariant_witness :
  names_unique
    (foldl (λ s o, run_op o s) initial_table
       [OpRecord {| task_name := 7; time := 5; is_running := false |};
        OpRecord {| task_name := 8; time := 1; is_running := false |};
        OpRecord {| task_name := 7; time := 2; is_running := false |};
        OpEndPass;
        OpResetAll]).
Proof.
  apply names_unique_invariant.
  repeat constructor; simpl; discriminate.
Defined.

(** * Properties of the stopwatch *)

(** C8. Starting a stopwatch that is already started, and stopping one that
    is already stopped, only log an error: the handler comes back with its
    name, time, start and state as they were. *)
Theorem stopwatch_misuse_is_noop (now : Z) (h : Stopwatch.stats_run_time_t) :
  (Stopwatch.state h = Stopwatch.STATS_MEASURE_START →
   Stopwatch.stats_run_time_start now (Some h)
     = (Some h, [Log LOGE "run time measurement is already started"]))
  ∧ (Stopwatch.state h = Stopwatch.STATS_MEASURE_STOP →
     Stopwatch.stats_run_time_stop now (Some h)
       = (Some h, [Log LOGE "run time measurement is not started"])).
Proof.
  split; intros Hst; simpl; by rewrite Hst.
Qed.

Lemma stopwatch_misuse_is_noop_witness :
  Stopwatch.stats_run_time_start 99
    (Some {| Stopwatch.name := "t"; Stopwatch.time := 3; Stopwatch.start := 50;
             Stopwatch.state := Stopwatch.STATS_MEASURE_START |})
  = (Some {| Stopwatch.name := "t"; Stopwatch.time := 3; Stopwatch.start := 50;
             Stopwatch.state := Stopwatch.STATS_MEASURE_START |},
     [Log LOGE "run time measurement is already started"])
  ∧ Stopwatch.stats_run_time_stop 99
      (Some {| Stopwatch.name := "t"; Stopwatch.time := 3; Stopwatch.start := 50;
               Stopwatch.state := Stopwatch.STATS_MEASURE_STOP |})
    = (Some {| Stopwatch.name := "t"; Stopwatch.time := 3; Stopwatch.start := 50;
               Stopwatch.state := Stopwatch.STATS_MEASURE_STOP |},
       [Log LOGE "run time measurement is not started"]).
Proof.
  split.
  - apply (stopwatch_misuse_is_noop 99). reflexivity.
  - apply (stopwatch_misuse_is_noop 99). reflexivity.
Defined.

(** * The reconciler: how a pass ends *)

(** C2 (as amended). With both captures taken, [print_real_time_stats]
    returns [ESP_ERR_INVALID_STATE] exactly when the two total run times are
    equal, that is when their [uint32_t] difference is zero; it then leaves
    the table alone and prints nothing.  A later total that is smaller than
    the earlier one is not rejected: the difference wraps to a positive
    value. *)
Theorem degenerate_window_iff_equal_ticks
    (portNUM_PROCESSORS : Z) (tp : trap_point)
    (start_cap end_cap : capture) (s : table) :
  malloc_ok start_cap = true → task_array start_cap ≠ [] →
  malloc_ok end_cap = true → task_array end_cap ≠ [] →
  (0 ≤ run_time start_cap < 2 ^ 32)%Z → (0 ≤ run_time end_cap < 2 ^ 32)%Z →
  ((print_real_time_stats portNUM_PROCESSORS tp start_cap end_cap s).1.1
     = Returned ESP_ERR_INVALID_STATE
   ↔ run_time end_cap = run_time start_cap)
  ∧ (run_time end_cap = run_time start_cap →
     print_real_time_stats portNUM_PROCESSORS tp start_cap end_cap s
       = (Returned ESP_ERR_INVALID_STATE, s, []))
  ∧ ((run_time end_cap < run_time start_cap)%Z →
     (print_real_time_stats portNUM_PROCESSORS tp start_cap end_cap s).1.1
       ≠ Returned ESP_ERR_INVALID_STATE).
Proof.
  intros Hm1 Hs Hm2 He Hr1 Hr2.
  assert (wrap32 (run_time end_cap - run_time start_cap) = 0%Z
          ↔ run_time end_cap = run_time start_cap) as Hzero.
  { unfold wrap32. split.
    - intros Hmod.
      destruct (Z.le_gt_cases (run_time start_cap) (run_time end_cap)).
      + rewrite Z.mod_small in Hmod by lia. lia.
      + replace (run_time end_cap - run_time start_cap)%Z
          with ((run_time end_cap - run_time start_cap + 2 ^ 32) + (-1) * 2 ^ 32)%Z
          in Hmod by lia.
        rewrite Z.mod_add in Hmod by lia. rewrite Z.mod_small in Hmod by lia. lia.
    - intros ->. by rewrite Z.sub_diag. }
  unfold print_real_time_stats. rewrite Hm1, Hm2. simpl.
  destruct (task_array start_cap) as [|t1 l1] eqn:E1; [done|].
  destruct (task_array end_cap) as [|t2 l2] eqn:E2; [done|].
  cbn [length Nat.eqb].
  destruct (wrap32 (run_time end_cap - run_time start_cap) =? 0)%Z eqn:Ez.
  - apply Z.eqb_eq, Hzero in Ez. repeat split; try done. intros Hlt. lia.
  - apply Z.eqb_neq in Ez.
    assert (run_time end_cap ≠ run_time start_cap) as Hne.
    { intros Heq. by apply Hzero in Heq. }
    assert (∀ (r : pass_state + fault * pass_state),
              (match r with
               | inr (f, st) => (Fault f, infos st, output st)
               | inl st =>
                   (Returned ESP_OK, end_calc_accumulated_info (infos st),
                    output st
                      ++ deleted_loop (length (start_array st)) 0 (start_array st)
                      ++ created_loop (length (end_array st)) 0 (end_array st))
               end).1.1 ≠ Returned ESP_ERR_INVALID_STATE) as Hret.
    { intros [st|[f st]]; simpl; discriminate. }
    repeat split; first [done | intros Hres; exfalso; revert Hres; apply Hret].
Qed.

Lemma degenerate_window_iff_equal_ticks_witness :
  print_real_time_stats 2 TrapAtDivision
    (captured [task 11 101 1000] 5000) (captured [task 11 101 1400] 5000)
    initial_table
  = (Returned ESP_ERR_INVALID_STATE, initial_table, []).
Proof.
  apply (degenerate_window_iff_equal_ticks 2 TrapAtDivision
           (captured [task 11 101 1000] 5000) (captured [task 11 101 1400] 5000));
    solve [reflexivity | discriminate | simpl; lia].
Defined.

(** C2 as it was stated fails: with total run times 10 and then 5 the elapsed
    delta is negative, yet the pass is carried out and returns [ESP_OK]. *)
Lemma negative_window_not_rejected :
  ¬ ((print_real_time_stats 2 TrapAtDivision
        (captured [task 11 101 0] 10) (captured [task 11 101 400] 5)
        initial_table).1.1 = Returned ESP_ERR_INVALID_STATE
     ↔ (5 - 10 ≤ 0)%Z).
Proof.
  intros [_ H]. specialize (H ltac:(lia)). vm_compute in H. discriminate.
Qed.

(** With a full table that does not hold the name of the first start entry,
    and that entry matched, the pass traps at its first row, whatever the
    snapshots are otherwise. *)
Lemma full_table_first_match_faults
    (P : Z) (tp : trap_point) (start_cap end_cap : capture) (s : table)
    (t : TaskStatus_t) (rest : list TaskStatus_t) (k : nat) :
  malloc_ok start_cap = true → malloc_ok end_cap = true →
  task_array start_cap = t :: rest →
  find_handle_loop (length (task_array end_cap)) 0 (xHandle t) (task_array end_cap)
    = Some k →
  wrap32 (run_time end_cap - run_time start_cap) ≠ 0%Z →
  wrap32 (wrap32 (run_time end_cap - run_time start_cap) * P) ≠ 0%Z →
  table_wf s →
  (∀ j, j < length s →
     task_name (s !!! j) ≠ pcTaskName t ∧ task_name (s !!! j) ≠ NULL) →
  print_real_time_stats P tp start_cap end_cap s
  = (Fault NullDereference, s,
     [PrintHeader; Log LOGE "error: accumulated info's buffer is full"]).
Proof.
  intros Hm1 Hm2 Ht Hfind Htotal Hdiv Hwf Hfull.
  unfold print_real_time_stats. rewrite Hm1, Hm2, Ht.
  destruct (task_array end_cap) as [|e l] eqn:He; [discriminate|].
  apply Z.eqb_neq in Htotal, Hdiv. cbn [negb length Nat.eqb]. rewrite Htotal.
  cbn [match_loop]. unfold match_body.
  cbn [start_array end_array infos output].
  change ((t :: rest) !!! 0) with t. rewrite Hfind. cbv zeta.
  change (<[0:=set_xHandle NULL t]> (t :: rest) !!! 0) with (set_xHandle NULL t).
  rewrite Hdiv. cbn [andb pcTaskName set_xHandle].
  rewrite set_accumulated_info_full by done.
  rewrite get_accumulated_info_absent; [done | done |].
  intros j Hj. by apply Hfull.
Qed.

(** C1. Seventeen tasks, all present in both captures, starting from the
    zero-initialised table: the first sixteen fill the table, the seventeenth
    finds it full.  [set_accumulated_info] logs the error and returns, the
    lookup that follows yields [NULL], and the [res->time] argument of the
    row's [printf] reads through it: the pass does not return [ESP_OK], and
    the seventeenth row, the deleted and created lines and the end-of-pass
    sweep never happen. *)
Theorem full_table_pass_faults (tp : trap_point) :
  ∃ s' out,
    print_real_time_stats 2 tp
      (captured (n_tasks 17 0) 0) (captured (n_tasks 17 400) 1000) initial_table
      = (Fault NullDereference, s', out)
    ∧ last out = Some (Log LOGE "error: accumulated info's buffer is full")
    ∧ length (List.filter (λ ev, match ev with PrintRow _ _ _ _ _ _ => true | _ => false end)
                out) = 16
    ∧ Forall (λ e, is_running e = true) s'.
Proof.
  destruct tp.
  all: eexists _, _; (split; [vm_compute; reflexivity|]).
  all: split; [reflexivity|]; split; [reflexivity|].
  all: repeat constructor.
Qed.

(** * The reconciler: one iteration of the matching loop *)

Lemma set_loop_logged fuel i dst info (s : table) :
  (set_loop fuel i dst info s).2 = []
  ∨ (set_loop fuel i dst info s).2 = [Log LOGE "error: accumulated info's buffer is full"].
Proof.
  revert i dst. induction fuel as [|fuel IH]; intros i dst; simpl.
  - unfold set_after_loop. destruct (dst =? 255)%Z; simpl; auto.
  - destruct (task_name (s !!! i) =? task_name info)%Z; simpl; [auto|].
    destruct ((task_name (s !!! i) =? NULL)%Z && (dst =? 255)%Z); apply IH.
Qed.

Lemma set_accumulated_info_verdicts info (s : table) :
  verdicts (set_accumulated_info info s).2 = [].
Proof.
  unfold set_accumulated_info.
  by destruct (set_loop_logged ACCUMULATED_INFO_NUM 0 255 info s) as [-> | ->].
Qed.

Lemma set_accumulated_info_rows_ok P total S0 E0 info (s : table) :
  Forall (row_ok P total S0 E0) (set_accumulated_info info s).2.
Proof.
  unfold set_accumulated_info.
  destruct (set_loop_logged ACCUMULATED_INFO_NUM 0 255 info s) as [-> | ->];
    repeat constructor.
Qed.

Lemma set_xHandle_lookup_data h (l : list TaskStatus_t) i j :
  pcTaskName (<[i := set_xHandle h (l !!! i)]> l !!! j) = pcTaskName (l !!! j)
  ∧ ulRunTimeCounter (<[i := set_xHandle h (l !!! i)]> l !!! j)
    = ulRunTimeCounter (l !!! j).
Proof.
  rewrite list_lookup_total_insert. case_decide as Hd; [|done].
  destruct Hd as [-> _]. done.
Qed.

Section MatchBody.
Variable P : Z.
Variable tp : trap_point.
Variable total : Z.

(** The ways an iteration with a match can go, and the one without.  With a
    zero divisor it traps, before or after the table was updated. *)
Lemma match_body_cases i (st : pass_state) :
  match find_handle_loop (length (end_array st)) 0
          (xHandle (start_array st !!! i)) (end_array st) with
  | None => match_body P tp total i st = inl st
  | Some k =>
      let start' := <[i := set_xHandle NULL (start_array st !!! i)]> (start_array st) in
      let end' := <[k := set_xHandle NULL (end_array st !!! k)]> (end_array st) in
      let el := wrap32 (ulRunTimeCounter (end_array st !!! k)
                        - ulRunTimeCounter (start_array st !!! i)) in
      let buf := {| task_name := pcTaskName (start_array st !!! i); time := el;
                    is_running := false |} in
      let infos' := (set_accumulated_info buf (infos st)).1 in
      let logged := (set_accumulated_info buf (infos st)).2 in
      (wrap32 (total * P) = 0%Z
       ∧ (match_body P tp total i st
          = inr (DivisionByZero,
                 {| start_array := start'; end_array := end';
                    infos := infos st; output := output st |})
          ∨ ∃ f, match_body P tp total i st
                 = inr (f, {| start_array := start'; end_array := end';
                              infos := infos'; output := output st ++ logged |})))
      ∨ (wrap32 (total * P) ≠ 0%Z
         ∧ match_body P tp total i st
           = inr (NullDereference,
                  {| start_array := start'; end_array := end';
                     infos := infos'; output := output st ++ logged |}))
      ∨ (wrap32 (total * P) ≠ 0%Z
         ∧ ∃ acc,
             match_body P tp total i st
             = inl {| start_array := start'; end_array := end'; infos := infos';
                      output := output st ++ logged ++
                        [PrintRow i k (pcTaskName (start_array st !!! i)) el acc
                           (wrap32 (el * 100) / wrap32 (total * P))] |})
  end.
Proof.
  unfold match_body.
  destruct (find_handle_loop _ _ _ _) as [k|]; [|done]. cbv zeta.
  destruct (set_xHandle_lookup_data NULL (start_array st) i i) as [-> ->].
  destruct (set_xHandle_lookup_data NULL (end_array st) k k) as [_ ->].
  destruct (wrap32 (total * P) =? 0)%Z eqn:Ed.
  { left. apply Z.eqb_eq in Ed. split; [exact Ed|].
    destruct (set_accumulated_info _ (infos st)) as [infos' logged].
    destruct tp; cbn [andb trap_point_eqb fst snd]; [by left | right; eauto |].
    destruct (get_accumulated_info _ infos') as [r|]; right; eauto. }
  apply Z.eqb_neq in Ed. right. cbn [andb].
  destruct (set_accumulated_info _ (infos st)) as [infos' logged]. simpl.
  destruct (get_accumulated_info _ infos') as [r|]; [right|left]; eauto.
Qed.

End MatchBody.

(** * The reconciler: the arithmetic of a row *)

Lemma same_data_set_xHandle h (l l0 : list TaskStatus_t) i :
  same_data l l0 → same_data (<[i := set_xHandle h (l !!! i)]> l) l0.
Proof.
  intros [Hlen Hdata]. split; [by rewrite length_insert|].
  intros j. destruct (set_xHandle_lookup_data h l i j) as [-> ->]. apply Hdata.
Qed.

Section RowArithmetic.
Variable P : Z.
Variable tp : trap_point.
Variable total : Z.
Variable S0 E0 : list TaskStatus_t.

Lemma match_body_pass_ok i (st : pass_state) :
  i < length S0 → pass_ok P total S0 E0 st →
  pass_ok P total S0 E0 (final_state (match_body P tp total i st)).
Proof.
  intros Hi (Hs & He & Hout).
  pose proof (match_body_cases P tp total i st) as Hcases.
  destruct (find_handle_loop _ _ _ _) as [k|] eqn:Hfind.
  2: { rewrite Hcases. by split. }
  rewrite find_handle_loop_first_from in Hfind.
  apply first_from_Some in Hfind as (Hk & _ & _).
  cbv zeta in Hcases.
  destruct Hcases as [[Hz [-> | [f ->]]] | [[Hnz ->] | [Hnz [acc ->]]]]; simpl;
    (split; [by apply same_data_set_xHandle|]);
    (split; [by apply same_data_set_xHandle|]); [done | | |].
  - apply Forall_app. split; [done|]. apply set_accumulated_info_rows_ok.
  - apply Forall_app. split; [done|]. apply set_accumulated_info_rows_ok.
  - apply Forall_app. split; [done|].
    apply Forall_app. split; [apply set_accumulated_info_rows_ok|].
    constructor; [|constructor]. simpl.
    destruct Hs as [Hsl Hsd], He as [Hel Hed].
    destruct (Hsd i) as [-> ->], (Hed k) as [_ ->].
    repeat split; try done. lia.
Qed.

Lemma match_loop_pass_ok fuel i (st : pass_state) :
  i + fuel ≤ length S0 → pass_ok P total S0 E0 st →
  pass_ok P total S0 E0 (final_state (match_loop P tp fuel i total st)).
Proof.
  revert i st. induction fuel as [|fuel IH]; intros i st Hle Hok; simpl; [done|].
  pose proof (match_body_pass_ok i st ltac:(lia) Hok) as Hbody.
  destruct (match_body P tp total i st) as [st'|[f st']]; simpl in *; [|done].
  apply IH; [lia | done].
Qed.

End RowArithmetic.

Lemma deleted_loop_no_row fuel i (l : list TaskStatus_t) ev :
  ev ∈ deleted_loop fuel i l → ∃ j name, ev = PrintDeleted j name.
Proof.
  revert i. induction fuel as [|fuel IH]; intros i; simpl.
  { by intros ?%elem_of_nil. }
  intros [Hin|Hin]%elem_of_app; [|by eapply IH].
  destruct (xHandle (l !!! i) =? NULL)%Z; [by apply elem_of_nil in Hin|].
  apply list_elem_of_singleton in Hin. eauto.
Qed.

Lemma created_loop_no_row fuel i (l : list TaskStatus_t) ev :
  ev ∈ created_loop fuel i l → ∃ j name, ev = PrintCreated j name.
Proof.
  revert i. induction fuel as [|fuel IH]; intros i; simpl.
  { by intros ?%elem_of_nil. }
  intros [Hin|Hin]%elem_of_app; [|by eapply IH].
  destruct (xHandle (l !!! i) =? NULL)%Z; [by apply elem_of_nil in Hin|].
  apply list_elem_of_singleton in Hin. eauto.
Qed.

Lemma print_real_time_stats_rows_ok P tp start_cap end_cap (s : table) :
  Forall (row_ok P (wrap32 (run_time end_cap - run_time start_cap))
            (task_array start_cap) (task_array end_cap))
    (print_real_time_stats P tp start_cap end_cap s).2.
Proof.
  unfold print_real_time_stats.
  repeat (match goal with |- context [if ?b then _ else _] => destruct b end;
          [by constructor|]).
  set (total := wrap32 _).
  set (st0 := {| start_array := task_array start_cap |}).
  pose proof (match_loop_pass_ok P tp total (task_array start_cap) (task_array end_cap)
                (length (task_array start_cap)) 0 st0 ltac:(simpl; lia)) as Hok.
  destruct Hok as (_ & _ & Hout).
  { repeat split; repeat constructor. }
  destruct (match_loop _ _ _ _ _ _) as [st|[f st]]; simpl in *; [|done].
  apply Forall_app. split; [done|]. apply Forall_forall. intros ev Hev.
  apply elem_of_app in Hev as [(? & ? & ->)%deleted_loop_no_row
                              |(? & ? & ->)%created_loop_no_row]; done.
Qed.

(** C4 (as amended). For every row the pass prints, the elapsed time is the
    [uint32_t] difference of the two run-time counters, and the percentage is
    the quotient of the two [uint32_t] products [elapsed * 100] and
    [total_elapsed_time * portNUM_PROCESSORS]; it is the exact
    [floor (elapsed * 100 / (total * width))] whenever neither product
    exceeds 32 bits. *)
Theorem row_values (P : Z) (tp : trap_point) (start_cap end_cap : capture) (s : table)
    (i k : nat) (name el acc pct : Z) :
  PrintRow i k name el acc pct ∈ (print_real_time_stats P tp start_cap end_cap s).2 →
  let total := wrap32 (run_time end_cap - run_time start_cap) in
  name = pcTaskName (task_array start_cap !!! i)
  ∧ el = ((ulRunTimeCounter (task_array end_cap !!! k)
           - ulRunTimeCounter (task_array start_cap !!! i)) mod 2 ^ 32)%Z
  ∧ pct = (((el * 100) mod 2 ^ 32) / ((total * P) mod 2 ^ 32))%Z
  ∧ ((el * 100 < 2 ^ 32)%Z → (0 ≤ total * P < 2 ^ 32)%Z →
     pct = (el * 100 / (total * P))%Z).
Proof.
  intros Hin total.
  pose proof (print_real_time_stats_rows_ok P tp start_cap end_cap s) as Hall.
  rewrite Forall_forall in Hall. specialize (Hall _ Hin). simpl in Hall.
  destruct Hall as (_ & _ & Hname & Hel & Hnz & Hpct). fold total in Hnz, Hpct.
  repeat split; try done.
  intros Hsmall Hrange. rewrite Hpct. unfold wrap32.
  assert (0 ≤ el)%Z by (rewrite Hel; unfold wrap32; apply Z.mod_pos_bound; lia).
  rewrite !Z.mod_small by lia. done.
Qed.

Lemma row_values_witness :
  let el := 400%Z in
  let pct := 20%Z in
  el = ((1400 - 1000) mod 2 ^ 32)%Z
  ∧ pct = (((el * 100) mod 2 ^ 32) / ((wrap32 (1000 - 0) * 2) mod 2 ^ 32))%Z
  ∧ pct = (el * 100 / (wrap32 (1000 - 0) * 2))%Z.
Proof.
  intros el pct.
  pose proof (row_values 2 TrapAtDivision
                (captured [task 11 101 1000; task 12 102 500] 0)
                (captured [task 11 101 1400; task 12 102 900; task 13 103 50] 1000)
                initial_table 0 0 101 400 400 20) as H.
  destruct H as (_ & Hel & Hpct & Hexact).
  { vm_compute. apply list_elem_of_In. simpl. auto. }
  split; [exact Hel|]. split; [exact Hpct|].
  apply Hexact; vm_compute; done.
Defined.

(** C4 as it was stated fails: a task that ran 50 000 000 ticks of a
    100 000 000 tick window on two cores is reported at 3 percent, while
    [floor (elapsed * 100 / (total * width))] is 25: the product
    [elapsed * 100] does not fit in 32 bits. *)
Lemma percentage_not_exact :
  PrintRow 0 0 101 50000000 50000000 3
    ∈ (print_real_time_stats 2 TrapAtDivision
         (captured [task 11 101 0] 0) (captured [task 11 101 50000000] 100000000)
         initial_table).2
  ∧ (50000000 * 100 / (100000000 * 2))%Z = 25%Z
  ∧ 3%Z ≠ (50000000 * 100 / (100000000 * 2))%Z.
Proof.
  split; [|split; [reflexivity | vm_compute; discriminate]].
  apply list_elem_of_In. vm_compute. auto.
Qed.

(** * The reconciler: classification of the entries *)

Lemma first_from_ext {A B} `{!Inhabited A, !Inhabited B}
    (P : A → bool) (Q : B → bool) fuel i (l1 : list A) (l2 : list B) :
  (∀ j, i ≤ j < i + fuel → P (l1 !!! j) = Q (l2 !!! j)) →
  first_from P fuel i l1 = first_from Q fuel i l2.
Proof.
  revert i. induction fuel as [|fuel IH]; intros i Hext; simpl; [done|].
  rewrite Hext by lia. rewrite IH; [done|]. intros j Hj. apply Hext. lia.
Qed.

Lemma handle_elem_of (l : list TaskStatus_t) h :
  h ∈ xHandle <$> l ↔ ∃ k, k < length l ∧ xHandle (l !!! k) = h.
Proof.
  rewrite list_elem_of_fmap. split.
  - intros (e & -> & (k & Hk & <-)%list_elem_of_lookup_total). eauto.
  - intros (k & Hk & <-). exists (l !!! k). split; [done|].
    apply list_elem_of_lookup_total. eauto.
Qed.

Lemma handle_take_elem_of (l : list TaskStatus_t) i h :
  i ≤ length l →
  h ∈ xHandle <$> take i l ↔ ∃ j, j < i ∧ xHandle (l !!! j) = h.
Proof.
  intros Hi. rewrite list_elem_of_fmap. setoid_rewrite elem_of_take. split.
  - intros (e & -> & j & Hj & Hlt). exists j. split; [done|].
    by rewrite (list_lookup_total_correct _ _ _ Hj).
  - intros (j & Hj & <-). exists (l !!! j). split; [done|]. exists j. split; [|done].
    apply list_lookup_lookup_total_lt. lia.
Qed.

Lemma take_S_handles (l : list TaskStatus_t) i h :
  i < length l →
  h ∈ xHandle <$> take (S i) l ↔ h ∈ xHandle <$> take i l ∨ h = xHandle (l !!! i).
Proof.
  intros Hi. rewrite (take_S_r l i (l !!! i)) by (by apply list_lookup_lookup_total_lt).
  rewrite fmap_app, elem_of_app. simpl. by rewrite list_elem_of_singleton.
Qed.

Lemma handles_inj (l : list TaskStatus_t) i j :
  NoDup (xHandle <$> l) → i < length l → j < length l →
  xHandle (l !!! i) = xHandle (l !!! j) → i = j.
Proof.
  intros Hnd Hi Hj Heq.
  apply (NoDup_lookup _ i j (xHandle (l !!! i)) Hnd);
    rewrite list_lookup_fmap, list_lookup_lookup_total_lt by done; simpl; congruence.
Qed.

Lemma handle_not_null (l : list TaskStatus_t) i :
  handles_wf l → i < length l → xHandle (l !!! i) ≠ NULL.
Proof.
  intros [_ Hnn] Hi Heq. apply Hnn. apply handle_elem_of. eauto.
Qed.

Lemma partner_Some (E0 : list TaskStatus_t) h k :
  partner E0 h = Some k → k < length E0 ∧ xHandle (E0 !!! k) = h.
Proof.
  intros (Hk & Heq & _)%first_index_Some. split; [done|].
  apply Z.eqb_eq in Heq. done.
Qed.

Lemma partner_None (E0 : list TaskStatus_t) h :
  partner E0 h = None → h ∉ xHandle <$> E0.
Proof.
  intros Hnone (k & Hk & Heq)%handle_elem_of.
  pose proof (first_index_None _ _ Hnone k Hk) as Hf. simpl in Hf.
  apply Z.eqb_neq in Hf. done.
Qed.

Lemma partner_of_handle (E0 : list TaskStatus_t) k :
  NoDup (xHandle <$> E0) → k < length E0 →
  partner E0 (xHandle (E0 !!! k)) = Some k.
Proof.
  intros Hnd Hk. apply first_index_is_Some; [done | by apply Z.eqb_eq |].
  intros j Hj. apply Z.eqb_neq. intros Heq.
  assert (k = j) by (apply (handles_inj E0); [done | done | lia | done]). lia.
Qed.

Section Classification.
Variable P : Z.
Variable tp : trap_point.
Variable total : Z.
Variable S0 E0 : list TaskStatus_t.
Hypothesis HS0 : handles_wf S0.
Hypothesis HE0 : handles_wf E0.

Lemma find_handle_is_partner i (st : pass_state) :
  i < length S0 → class_inv S0 E0 i st →
  xHandle (start_array st !!! i) = xHandle (S0 !!! i)
  ∧ find_handle_loop (length (end_array st)) 0
      (xHandle (start_array st !!! i)) (end_array st)
    = partner E0 (xHandle (S0 !!! i)).
Proof.
  intros Hi (Hls & Hle & Hs & He & Hv).
  assert (xHandle (start_array st !!! i) = xHandle (S0 !!! i)) as Hh.
  { rewrite Hs by done. rewrite decide_False; [done|lia]. }
  split; [done|].
  rewrite find_handle_loop_first_from, Hh, Hle. unfold partner, first_index.
  apply first_from_ext. intros k Hk. rewrite He by lia.
  case_decide as Hd; [|done].
  apply handle_take_elem_of in Hd as (j & Hj & Hjk); [|lia].
  transitivity false.
  - apply Z.eqb_neq. by apply handle_not_null.
  - symmetry. apply Z.eqb_neq. intros Heq.
    assert (i = j); [|lia].
    destruct HS0 as [Hnd _]. apply (handles_inj S0); [done | done | lia | congruence].
Qed.

Lemma match_body_class_inv i (st st' : pass_state) :
  i < length S0 → class_inv S0 E0 i st →
  match_body P tp total i st = inl st' → class_inv S0 E0 (S i) st'.
Proof.
  intros Hi Hinv Hbody.
  destruct (find_handle_is_partner i st Hi Hinv) as [Hh Hfind].
  destruct Hinv as (Hls & Hle & Hs & He & Hv).
  destruct HS0 as [HndS HnnS], HE0 as [HndE HnnE].
  pose proof (match_body_cases P tp total i st) as Hc. rewrite Hfind in Hc.
  assert (seq 0 (S i) = seq 0 i ++ [i]) as Hseq by (by rewrite seq_S).
  destruct (partner E0 (xHandle (S0 !!! i))) as [k|] eqn:Hp.
  - cbv zeta in Hc.
    destruct Hc as [[_ [Hc|[f Hc]]]|[[_ Hc]|[_ [acc Hc]]]]; rewrite Hc in Hbody;
      try discriminate.
    injection Hbody as <-. apply partner_Some in Hp as Hp'. destruct Hp' as [Hk Hkh].
    unfold class_inv. cbn [start_array end_array infos output].
    rewrite !length_insert.
    split; [done|]. split; [done|]. split; [|split].
    + intros j Hj. rewrite list_lookup_total_insert. case_decide as Hd.
      * destruct Hd as [<- _]. simpl. rewrite decide_True; [done|].
        split; [lia|]. apply handle_elem_of. eauto.
      * rewrite Hs by done. assert (i ≠ j) by lia.
        apply decide_ext. split; intros [? ?]; (split; [lia|done]).
    + intros k' Hk'. rewrite list_lookup_total_insert. case_decide as Hd.
      * destruct Hd as [<- _]. simpl. rewrite decide_True; [done|].
        apply handle_take_elem_of; [lia|]. exists i. split; [lia|]. congruence.
      * rewrite He by done. assert (k ≠ k') as Hne by lia.
        apply decide_ext. rewrite take_S_handles by done.
        split; [by left|]. intros [?|Heq]; [done|]. exfalso.
        apply Hne. apply (handles_inj E0); [done..|congruence].
    + unfold verdicts in *. rewrite Hseq, !omap_app, Hv. f_equal.
      fold (verdicts (set_accumulated_info
                        {| task_name := pcTaskName (start_array st !!! i);
                           time := wrap32 (ulRunTimeCounter (end_array st !!! k)
                                           - ulRunTimeCounter (start_array st !!! i));
                           is_running := false |} (infos st)).2).
      rewrite set_accumulated_info_verdicts. simpl. by rewrite Hp.
  - rewrite Hc in Hbody. injection Hbody as <-.
    apply partner_None in Hp as Hp'.
    unfold class_inv. split; [done|]. split; [done|]. split; [|split].
    + intros j Hj. rewrite Hs by done.
      apply decide_ext. split; intros [? Hin]; (split; [|done]); [lia|].
      destruct (decide (j = i)) as [->|]; [done|lia].
    + intros k Hk. rewrite He by done.
      apply decide_ext. rewrite take_S_handles by done.
      split; [by left|]. intros [?|Heq]; [done|]. exfalso.
      apply Hp'. apply handle_elem_of. eauto.
    + rewrite Hseq, omap_app, Hv. simpl. rewrite Hp. simpl. by rewrite app_nil_r.
Qed.

Lemma match_loop_class_inv fuel i (st st' : pass_state) :
  i + fuel ≤ length S0 → class_inv S0 E0 i st →
  match_loop P tp fuel i total st = inl st' → class_inv S0 E0 (i + fuel) st'.
Proof.
  revert i st. induction fuel as [|fuel IH]; intros i st Hle Hinv; simpl.
  { intros [= <-]. by rewrite Nat.add_0_r. }
  destruct (match_body P tp total i st) as [st1|] eqn:Hbody; [|done].
  intros Hloop. replace (i + S fuel) with (S i + fuel) by lia.
  apply (IH (S i) st1); [lia | | done].
  apply (match_body_class_inv i st); [lia | done | done].
Qed.

End Classification.

Lemma omap_seq_ext {B} (f g : nat → option B) a n :
  (∀ j, a ≤ j < a + n → f j = g j) → omap f (seq a n) = omap g (seq a n).
Proof.
  revert a. induction n as [|n IH]; intros a Hext; [done|].
  cbn [seq omap list_omap]. rewrite Hext by lia. rewrite IH; [done|].
  intros j Hj. apply Hext. lia.
Qed.

(** Among the verdicts produced position by position, those selected by [p]
    all come from position [i] when [p] rejects what any other position
    produces. *)
Lemma filter_omap_seq (p : verdict → bool) (g : nat → option verdict) i a n :
  (∀ j v, a ≤ j < a + n → j ≠ i → g j = Some v → p v = false) →
  List.filter p (omap g (seq a n))
  = if decide (a ≤ i < a + n) then List.filter p (option_list (g i)) else [].
Proof.
  revert a. induction n as [|n IH]; intros a Hother.
  { rewrite decide_False by lia. done. }
  assert (∀ j v, S a ≤ j < S a + n → j ≠ i → g j = Some v → p v = false) as Hother'
    by (intros j v Hj; apply Hother; lia).
  cbn [seq omap list_omap]. destruct (decide (a = i)) as [->|Hne].
  - rewrite decide_True by lia.
    assert (List.filter p (omap g (seq (S i) n)) = []) as Hrest.
    { rewrite IH by done. rewrite decide_False by lia. done. }
    destruct (g i) as [v|]; simpl; [|done].
    fold (omap g (seq (S i) n)). rewrite Hrest. done.
  - assert (List.filter p (omap g (seq (S a) n))
            = if decide (a ≤ i < a + S n) then List.filter p (option_list (g i)) else [])
      as Hrest.
    { rewrite IH by done. apply decide_ext. lia. }
    destruct (g a) as [v|] eqn:Hga; [|done].
    simpl. rewrite (Hother a v ltac:(lia) Hne Hga). done.
Qed.

Lemma filter_omap_seq_none (p : verdict → bool) (g : nat → option verdict) a n :
  (∀ j v, a ≤ j < a + n → g j = Some v → p v = false) →
  List.filter p (omap g (seq a n)) = [].
Proof.
  intros Hall. rewrite (filter_omap_seq p g (a + n)) by eauto.
  rewrite decide_False by lia. done.
Qed.

Lemma deleted_loop_verdicts fuel i (l : list TaskStatus_t) :
  verdicts (deleted_loop fuel i l)
  = omap (λ j, if (xHandle (l !!! j) =? NULL)%Z then None else Some (Ended j))
      (seq i fuel).
Proof.
  revert i. induction fuel as [|fuel IH]; intros i; [done|].
  cbn [deleted_loop seq omap list_omap]. unfold verdicts in *.
  rewrite omap_app, IH. by destruct (xHandle (l !!! i) =? NULL)%Z.
Qed.

Lemma created_loop_verdicts fuel i (l : list TaskStatus_t) :
  verdicts (created_loop fuel i l)
  = omap (λ j, if (xHandle (l !!! j) =? NULL)%Z then None else Some (Created j))
      (seq i fuel).
Proof.
  revert i. induction fuel as [|fuel IH]; intros i; [done|].
  cbn [created_loop seq omap list_omap]. unfold verdicts in *.
  rewrite omap_app, IH. by destruct (xHandle (l !!! i) =? NULL)%Z.
Qed.

(** The verdicts of a whole pass that returns [ESP_OK]: the rows of the
    matched entries, then the unmatched start entries, then the unmatched
    end entries. *)
Lemma print_real_time_stats_verdicts P tp start_cap end_cap (s s' : table) out :
  handles_wf (task_array start_cap) → handles_wf (task_array end_cap) →
  print_real_time_stats P tp start_cap end_cap s = (Returned ESP_OK, s', out) →
  verdicts out
  = omap (λ i, Matched i <$> partner (task_array end_cap)
                               (xHandle (task_array start_cap !!! i)))
      (seq 0 (length (task_array start_cap)))
    ++ omap (λ i, if decide (xHandle (task_array start_cap !!! i)
                             ∈ xHandle <$> task_array end_cap)
                  then None else Some (Ended i))
         (seq 0 (length (task_array start_cap)))
    ++ omap (λ k, if decide (xHandle (task_array end_cap !!! k)
                             ∈ xHandle <$> task_array start_cap)
                  then None else Some (Created k))
         (seq 0 (length (task_array end_cap))).
Proof.
  intros HS HE. unfold print_real_time_stats.
  repeat (match goal with |- context [if ?b then _ else _] => destruct b end;
          [discriminate|]).
  set (total := wrap32 _). set (S0 := task_array start_cap) in *.
  set (E0 := task_array end_cap) in *.
  destruct (match_loop _ _ _ _ _ _) as [st|[f st]] eqn:Hloop; [|discriminate].
  intros Heq. pose proof (f_equal snd Heq) as Hout. cbn [snd] in Hout.
  subst out. clear Heq.
  apply (match_loop_class_inv P tp total S0 E0 HS HE) in Hloop; [|simpl; lia|].
  2: { by repeat split. }
  destruct Hloop as (Hls & Hle & Hs & He & Hv). simpl in Hs, He.
  unfold verdicts in *. rewrite !omap_app, Hv. f_equal.
  fold (verdicts (deleted_loop (length (start_array st)) 0 (start_array st))).
  fold (verdicts (created_loop (length (end_array st)) 0 (end_array st))).
  rewrite deleted_loop_verdicts, created_loop_verdicts, Hls, Hle. f_equal.
  - apply omap_seq_ext. intros j Hj. rewrite Hs by lia.
    case_decide as Hd.
    + rewrite Z.eqb_refl. rewrite decide_True; [done|]. apply Hd.
    + rewrite decide_False by (intros Hin; apply Hd; split; [lia|done]).
      assert (xHandle (S0 !!! j) ≠ NULL) as Hnn by (apply handle_not_null; [done|lia]).
      apply Z.eqb_neq in Hnn. by rewrite Hnn.
  - apply omap_seq_ext. intros k Hk. rewrite He by lia.
    rewrite take_ge by done.
    case_decide as Hd.
    + by rewrite Z.eqb_refl.
    + assert (xHandle (E0 !!! k) ≠ NULL) as Hnn by (apply handle_not_null; [done|lia]).
      apply Z.eqb_neq in Hnn. by rewrite Hnn.
Qed.

(** C3 (as amended). In a pass that runs to completion, that is returns
    [ESP_OK], over two snapshots of live tasks (handles distinct within a
    snapshot and never [NULL]), every entry gets exactly one verdict,
    decided by handle equality alone: an entry present
    in both snapshots is reported by one row, which is the only line about
    either of its two positions; a start entry whose handle is absent from
    the end snapshot is reported deleted once and has no row; an end entry
    whose handle is absent from the start snapshot is reported created once
    and has no row.  Names play no part: they are arbitrary here, so the
    verdicts stand when two entries share one. *)
Theorem every_entry_classified_once
    (P : Z) (tp : trap_point)
    (start_cap end_cap : capture) (s s' : table) (out : list event) :
  handles_wf (task_array start_cap) → handles_wf (task_array end_cap) →
  print_real_time_stats P tp start_cap end_cap s = (Returned ESP_OK, s', out) →
  let S0 := task_array start_cap in
  let E0 := task_array end_cap in
  (∀ i k, i < length S0 → k < length E0 →
     xHandle (S0 !!! i) = xHandle (E0 !!! k) →
     List.filter (on_start i) (verdicts out) = [Matched i k]
     ∧ List.filter (on_end k) (verdicts out) = [Matched i k])
  ∧ (∀ i, i < length S0 →
       (∀ k, k < length E0 → xHandle (E0 !!! k) ≠ xHandle (S0 !!! i)) →
       List.filter (on_start i) (verdicts out) = [Ended i])
  ∧ (∀ k, k < length E0 →
       (∀ i, i < length S0 → xHandle (S0 !!! i) ≠ xHandle (E0 !!! k)) →
       List.filter (on_end k) (verdicts out) = [Created k]).
Proof.
  intros HS HE Hrun S0 E0.
  pose proof (print_real_time_stats_verdicts P tp start_cap end_cap s s' out HS HE Hrun)
    as HV. fold S0 E0 in HV.
  destruct HS as [HndS HnnS], HE as [HndE HnnE]. fold S0 in HndS. fold E0 in HndE.
  split; [|split].
  - intros i k Hi Hk Heq.
    assert (partner E0 (xHandle (S0 !!! i)) = Some k) as Hp
      by (rewrite Heq; by apply partner_of_handle).
    assert (xHandle (S0 !!! i) ∈ xHandle <$> E0) as HinE
      by (apply handle_elem_of; eauto).
    assert (xHandle (E0 !!! k) ∈ xHandle <$> S0) as HinS
      by (apply handle_elem_of; eauto).
    rewrite HV, !List.filter_app. split.
    + rewrite (filter_omap_seq (on_start i) _ i).
      2: { intros j v _ Hne [k' [_ ->]]%fmap_Some. simpl. apply Nat.eqb_neq. lia. }
      rewrite decide_True by lia. rewrite Hp. simpl. rewrite Nat.eqb_refl.
      rewrite (filter_omap_seq (on_start i) _ i).
      2: { intros j v _ Hne Hv. case_decide; [done|]. injection Hv as <-.
           simpl. apply Nat.eqb_neq. lia. }
      rewrite decide_True by lia.
      rewrite (decide_True (A := option verdict)) by done.
      rewrite filter_omap_seq_none; [done|].
      intros j v _ Hv. case_decide; [done|]. by injection Hv as <-.
    + rewrite (filter_omap_seq (on_end k) _ i).
      2: { intros j v Hj Hne [k' [Hp' ->]]%fmap_Some. simpl. apply Nat.eqb_neq.
           intros <-. apply partner_Some in Hp' as [_ Hk'].
           apply Hne. apply (handles_inj S0); [done | lia | done | congruence]. }
      rewrite decide_True by lia. rewrite Hp. simpl. rewrite Nat.eqb_refl.
      rewrite filter_omap_seq_none.
      2: { intros j v _ Hv. case_decide; [done|]. by injection Hv as <-. }
      rewrite (filter_omap_seq (on_end k) _ k).
      2: { intros j v _ Hne Hv. case_decide; [done|]. injection Hv as <-.
           simpl. apply Nat.eqb_neq. lia. }
      rewrite decide_True by lia.
      rewrite (decide_True (A := option verdict)) by done.
      done.
  - intros i Hi Habsent.
    assert (xHandle (S0 !!! i) ∉ xHandle <$> E0) as HninE.
    { intros (k & Hk & Heq)%handle_elem_of. by apply (Habsent k). }
    assert (partner E0 (xHandle (S0 !!! i)) = None) as Hp.
    { destruct (partner E0 (xHandle (S0 !!! i))) as [k|] eqn:Hp; [|done].
      apply partner_Some in Hp as [Hk Heq]. by destruct (Habsent k Hk). }
    rewrite HV, !List.filter_app.
    rewrite (filter_omap_seq (on_start i) _ i).
    2: { intros j v _ Hne [k' [_ ->]]%fmap_Some. simpl. apply Nat.eqb_neq. lia. }
    rewrite decide_True by lia. rewrite Hp. simpl.
    rewrite (filter_omap_seq (on_start i) _ i).
    2: { intros j v _ Hne Hv. case_decide; [done|]. injection Hv as <-.
         simpl. apply Nat.eqb_neq. lia. }
    rewrite decide_True by lia.
    rewrite (decide_False (A := option verdict)) by done.
    simpl. rewrite Nat.eqb_refl.
    rewrite filter_omap_seq_none; [done|].
    intros j v _ Hv. case_decide; [done|]. by injection Hv as <-.
  - intros k Hk Habsent.
    assert (xHandle (E0 !!! k) ∉ xHandle <$> S0) as HninS.
    { intros (i & Hi & Heq)%handle_elem_of. by apply (Habsent i). }
    rewrite HV, !List.filter_app.
    rewrite filter_omap_seq_none.
    2: { intros j v Hj [k' [Hp' ->]]%fmap_Some. simpl. apply Nat.eqb_neq.
         intros <-. apply partner_Some in Hp' as [_ Heq].
         apply (Habsent j); [lia|done]. }
    rewrite filter_omap_seq_none.
    2: { intros j v _ Hv. case_decide; [done|]. by injection Hv as <-. }
    rewrite (filter_omap_seq (on_end k) _ k).
    2: { intros j v _ Hne Hv. case_decide; [done|]. injection Hv as <-.
         simpl. apply Nat.eqb_neq. lia. }
    rewrite decide_True by lia.
    rewrite (decide_False (A := option verdict)) by done.
    simpl. by rewrite Nat.eqb_refl.
Qed.

Lemma every_entry_classified_once_witness :
  let out := (print_real_time_stats 2 TrapAtDivision
                (captured [task 11 101 1000; task 12 102 500] 0)
                (captured [task 11 101 1400; task 13 102 900] 1000)
                initial_table).2 in
  (List.filter (on_start 0) (verdicts out) = [Matched 0 0]
   ∧ List.filter (on_end 0) (verdicts out) = [Matched 0 0])
  ∧ List.filter (on_start 1) (verdicts out) = [Ended 1]
  ∧ List.filter (on_end 1) (verdicts out) = [Created 1].
Proof.
  intros out.
  pose proof (every_entry_classified_once 2 TrapAtDivision
                (captured [task 11 101 1000; task 12 102 500] 0)
                (captured [task 11 101 1400; task 13 102 900] 1000)
                initial_table
                (print_real_time_stats 2 TrapAtDivision
                   (captured [task 11 101 1000; task 12 102 500] 0)
                   (captured [task 11 101 1400; task 13 102 900] 1000)
                   initial_table).1.2
                out) as H.
  destruct H as (Hboth & Hstart & Hend).
  - unfold handles_wf. apply (bool_decide_unpack _). vm_compute. exact I.
  - unfold handles_wf. apply (bool_decide_unpack _). vm_compute. exact I.
  - vm_compute. reflexivity.
  - split; [|split].
    + apply (Hboth 0 0); [simpl; lia | simpl; lia | reflexivity].
    + apply (Hstart 1); [simpl; lia|].
      intros k Hk. simpl in Hk.
      destruct k as [|[|k]]; [vm_compute; discriminate.. | lia].
    + apply (Hend 1); [simpl; lia|].
      intros i Hi. simpl in Hi.
      destruct i as [|[|i]]; [vm_compute; discriminate.. | lia].
Defined.

(** C3 as it was stated fails: a pass that is not carried out to its end
    leaves entries without a verdict.  First, two snapshots of one live task
    with equal total run times: the window guard returns
    [ESP_ERR_INVALID_STATE] before the matching loop, nothing is printed and
    the task, present in both snapshots, is not reported matched.  Second,
    eighteen entries a side on the zero-initialised table, start entry 0
    absent from the end snapshot, end entry 17 absent from the start
    snapshot, the seventeen others present in both: the pass traps at the
    seventeenth match, when the table is full, so that entry has no row,
    start entry 0 is never reported ended and end entry 17 never created. *)
Lemma unfinished_pass_leaves_entries_unclassified :
  (let S1 := [task 11 101 1000] in
   let E1 := [task 11 101 1400] in
   let r := print_real_time_stats 2 TrapAtDivision
              (captured S1 5000) (captured E1 5000) initial_table in
   handles_wf S1 ∧ handles_wf E1
   ∧ r = (Returned ESP_ERR_INVALID_STATE, initial_table, [])
   ∧ xHandle (S1 !!! 0) = xHandle (E1 !!! 0)
   ∧ List.filter (on_start 0) (verdicts r.2) ≠ [Matched 0 0]
   ∧ List.filter (on_end 0) (verdicts r.2) ≠ [Matched 0 0])
  ∧ (let S2 := task 900 1900 0 :: n_tasks 17 0 in
     let E2 := n_tasks 17 400 ++ [task 901 1901 0] in
     let r := print_real_time_stats 2 TrapAtDivision
                (captured S2 0) (captured E2 1000) initial_table in
     handles_wf S2 ∧ handles_wf E2
     ∧ r.1.1 = Fault NullDereference
     ∧ (∀ k, k < length E2 → xHandle (E2 !!! k) ≠ xHandle (S2 !!! 0))
     ∧ List.filter (on_start 0) (verdicts r.2) ≠ [Ended 0]
     ∧ (∀ i, i < length S2 → xHandle (S2 !!! i) ≠ xHandle (E2 !!! 17))
     ∧ List.filter (on_end 17) (verdicts r.2) ≠ [Created 17]
     ∧ xHandle (S2 !!! 17) = xHandle (E2 !!! 16)
     ∧ List.filter (on_start 17) (verdicts r.2) ≠ [Matched 17 16]).
Proof.
  split.
  - intros S1 E1 r.
    split; [unfold handles_wf; apply (bool_decide_unpack _); vm_compute; exact I|].
    split; [unfold handles_wf; apply (bool_decide_unpack _); vm_compute; exact I|].
    split; [vm_compute; reflexivity|].
    split; [reflexivity|].
    split; vm_compute; discriminate.
  - intros S2 E2 r.
    split; [unfold handles_wf; apply (bool_decide_unpack _); vm_compute; exact I|].
    split; [unfold handles_wf; apply (bool_decide_unpack _); vm_compute; exact I|].
    split; [vm_compute; reflexivity|].
    split.
    { intros k Hk.
      do 18 (destruct k as [|k]; [vm_compute; discriminate|]).
      vm_compute in Hk. lia. }
    split; [vm_compute; discriminate|].
    split.
    { intros i Hi.
      do 18 (destruct i as [|i]; [vm_compute; discriminate|]).
      vm_compute in Hi. lia. }
    split; [vm_compute; discriminate|].
    split; [reflexivity|].
    vm_compute; discriminate.
Qed.

(** * More on the accumulator table *)

Lemma holds_name_true name e : holds_name name e = true ↔ task_name e = name.
Proof. unfold holds_name. apply Z.eqb_eq. Qed.

Lemma holds_name_false name e : holds_name name e = false ↔ task_name e ≠ name.
Proof. unfold holds_name. apply Z.eqb_neq. Qed.

Lemma is_free_true e : is_free e = true ↔ task_name e = NULL.
Proof. unfold is_free. apply Z.eqb_eq. Qed.

Lemma is_free_false e : is_free e = false ↔ task_name e ≠ NULL.
Proof. unfold is_free. apply Z.eqb_neq. Qed.

(** The one slot [set_accumulated_info] writes, and what it writes there. *)
Lemma set_accumulated_info_cases info (s : table) :
  table_wf s →
  (∃ r, first_index (holds_name (task_name info)) s = Some r
        ∧ set_accumulated_info info s = (<[r := updated_slot (s !!! r) info]> s, []))
  ∨ (∃ d, first_index (holds_name (task_name info)) s = None
          ∧ first_index is_free s = Some d
          ∧ set_accumulated_info info s = (<[d := created_slot info]> s, []))
  ∨ (table_full (task_name info) s
     ∧ set_accumulated_info info s
       = (s, [Log LOGE "error: accumulated info's buffer is full"])).
Proof.
  intros Hwf. rewrite set_accumulated_info_eq by done.
  destruct (first_index (holds_name (task_name info)) s) as [r|] eqn:Hr; [eauto|].
  destruct (first_index is_free s) as [d|] eqn:Hd; [eauto 6|].
  right. right. split; [|done]. intros j Hj. split.
  - apply holds_name_false. by apply (first_index_None _ _ Hr).
  - apply is_free_false. by apply (first_index_None _ _ Hd).
Qed.

Lemma insert_wf (s : table) r e : table_wf s → table_wf (<[r := e]> s).
Proof. unfold table_wf. by rewrite length_insert. Qed.

Lemma get_accumulated_info_Some name (s : table) r :
  table_wf s →
  get_accumulated_info name s = Some r ↔
  r < length s ∧ task_name (s !!! r) = name
  ∧ ∀ j, j < r → task_name (s !!! j) ≠ name.
Proof.
  intros Hwf. rewrite get_accumulated_info_first_index by done. split.
  - intros (Hr & Hn & Hf)%first_index_Some. split; [done|].
    split; [by apply holds_name_true|].
    intros j Hj. apply holds_name_false. by apply Hf.
  - intros (Hr & Hn & Hf). apply first_index_is_Some; [done | by apply holds_name_true|].
    intros j Hj. apply holds_name_false. by apply Hf.
Qed.

Lemma get_accumulated_info_None name (s : table) :
  table_wf s →
  get_accumulated_info name s = None ↔
  ∀ j, j < length s → task_name (s !!! j) ≠ name.
Proof.
  intros Hwf. rewrite get_accumulated_info_first_index by done. split.
  - intros Hn j Hj. apply holds_name_false. by apply (first_index_None _ _ Hn).
  - intros Hall. apply first_index_is_None. intros j Hj.
    apply holds_name_false. by apply Hall.
Qed.

(** Unless the table is full for the name, the call writes one slot, the
    first that holds the name afterwards. *)
Lemma set_accumulated_info_written info (s : table) :
  table_wf s → ¬ table_full (task_name info) s →
  ∃ r e, r < length s
    ∧ (set_accumulated_info info s).1 = <[r := e]> s
    ∧ (set_accumulated_info info s).2 = []
    ∧ get_accumulated_info (task_name info) (<[r := e]> s) = Some r
    ∧ task_name e = task_name info ∧ is_running e = true
    ∧ time e = match record_of (task_name info) s with
               | Some e0 => wrap64 (time e0 + time info)
               | None => time info
               end
    ∧ (task_name (s !!! r) = task_name info ∨ task_name (s !!! r) = NULL).
Proof.
  intros Hwf Hroom. unfold record_of.
  rewrite get_accumulated_info_first_index by done.
  assert (∀ r e, r < length s → task_name e = task_name info →
            (∀ j, j < r → task_name (s !!! j) ≠ task_name info) →
            get_accumulated_info (task_name info) (<[r := e]> s) = Some r) as Hget.
  { intros r e Hr Hname Hfirst.
    apply get_accumulated_info_Some; [by apply insert_wf|].
    rewrite length_insert, list_lookup_total_insert_eq by done.
    split; [done|]. split; [done|].
    intros j Hj. rewrite list_lookup_total_insert_ne by lia. by apply Hfirst. }
  destruct (set_accumulated_info_cases info s Hwf)
    as [(r & Hr & ->) | [(d & Hr & Hd & ->) | [Hfull _]]]; [| |done].
  - rewrite Hr. apply first_index_Some in Hr as (Hlt & Hname & Hfirst).
    apply holds_name_true in Hname.
    exists r, (updated_slot (s !!! r) info). simpl.
    repeat split; try done; [|by left].
    apply Hget; [done | done |].
    intros j Hj. apply holds_name_false. by apply Hfirst.
  - rewrite Hr. pose proof (first_index_None _ _ Hr) as Hnone.
    apply first_index_Some in Hd as (Hlt & Hfree & Hfirst).
    apply is_free_true in Hfree.
    exists d, (created_slot info). simpl.
    repeat split; try done; [|by right].
    apply Hget; [done | done |].
    intros j Hj. apply holds_name_false. apply Hnone. lia.
Qed.

(** X2. After [set_accumulated_info] the lookup of the recorded name succeeds, on a
    slot that carries the name and the [is_running] mark and with nothing
    logged, unless the table was full for the name: then, and only then, the
    lookup yields [NULL] and the error is logged. *)
Theorem lookup_after_record (info : accumulated_info_t) (s : table) :
  table_wf s →
  (¬ table_full (task_name info) s →
   ∃ r, get_accumulated_info (task_name info) (set_accumulated_info info s).1 = Some r
        ∧ task_name ((set_accumulated_info info s).1 !!! r) = task_name info
        ∧ is_running ((set_accumulated_info info s).1 !!! r) = true
        ∧ (set_accumulated_info info s).2 = [])
  ∧ (table_full (task_name info) s →
     get_accumulated_info (task_name info) (set_accumulated_info info s).1 = None
     ∧ (set_accumulated_info info s).2
       = [Log LOGE "error: accumulated info's buffer is full"]).
Proof.
  intros Hwf. split.
  - intros Hroom.
    destruct (set_accumulated_info_written info s Hwf Hroom)
      as (r & e & Hr & -> & -> & Hget & Hname & Hrun & _).
    exists r. by rewrite list_lookup_total_insert_eq.
  - intros Hfull. rewrite set_accumulated_info_full by done. simpl.
    split; [|done]. apply get_accumulated_info_None; [done|].
    intros j Hj. by apply Hfull.
Qed.

Lemma record_of_Some name (s : table) e :
  table_wf s →
  record_of name s = Some e ↔
  ∃ r, get_accumulated_info name s = Some r ∧ e = s !!! r.
Proof.
  intros Hwf. unfold record_of. rewrite fmap_Some. naive_solver.
Qed.

(** Writing a slot that neither held [name'] nor holds it afterwards does not
    change what a lookup of [name'] finds. *)
Lemma lookup_insert_other name' (s : table) r e :
  table_wf s → r < length s →
  task_name (s !!! r) ≠ name' → task_name e ≠ name' →
  get_accumulated_info name' (<[r := e]> s) = get_accumulated_info name' s
  ∧ record_of name' (<[r := e]> s) = record_of name' s.
Proof.
  intros Hwf Hr Hold Hnew.
  assert (get_accumulated_info name' (<[r := e]> s) = get_accumulated_info name' s)
    as Hget.
  { rewrite !get_accumulated_info_first_index by (done || by apply insert_wf).
    unfold first_index. rewrite length_insert. apply first_from_ext.
    intros j Hj. destruct (decide (r = j)) as [<-|Hne].
    - rewrite list_lookup_total_insert_eq by done.
      transitivity false; [by apply holds_name_false|].
      symmetry. by apply holds_name_false.
    - by rewrite list_lookup_total_insert_ne. }
  split; [done|]. unfold record_of. rewrite Hget.
  destruct (get_accumulated_info name' s) as [r'|] eqn:Hr'; [|done]. simpl. f_equal.
  apply get_accumulated_info_Some in Hr' as (_ & Hn & _); [|done].
  apply list_lookup_total_insert_ne. congruence.
Qed.

(** X3. [set_accumulated_info] does not disturb the other names: a lookup of a
    non-[NULL] name other than the recorded one finds the same slot with the
    same content as before the call. *)
Theorem record_leaves_other_names (info : accumulated_info_t) (s : table) (name' : ptr) :
  table_wf s → name' ≠ NULL → name' ≠ task_name info →
  get_accumulated_info name' (set_accumulated_info info s).1
    = get_accumulated_info name' s
  ∧ record_of name' (set_accumulated_info info s).1 = record_of name' s.
Proof.
  intros Hwf Hnn Hne.
  destruct (set_accumulated_info_cases info s Hwf)
    as [(r & Hr & ->) | [(d & Hr & Hd & ->) | [_ ->]]]; simpl; [| |done].
  - apply first_index_Some in Hr as (Hlt & Hname & _).
    apply holds_name_true in Hname.
    apply lookup_insert_other; [done | done | congruence | simpl; congruence].
  - apply first_index_Some in Hd as (Hlt & Hfree & _).
    apply is_free_true in Hfree.
    apply lookup_insert_other; [done | done | congruence | simpl; congruence].
Qed.

(** A record marked in the pass is still found, at the same slot, after the
    end-of-pass sweep, with its time and without the mark. *)
Lemma end_calc_keeps_seen name (s : table) r :
  table_wf s → name ≠ NULL →
  get_accumulated_info name s = Some r → is_running (s !!! r) = true →
  get_accumulated_info name (end_calc_accumulated_info s) = Some r
  ∧ end_calc_accumulated_info s !!! r
    = {| task_name := name; time := time (s !!! r); is_running := false |}.
Proof.
  intros Hwf Hnn Hget Hrun.
  apply get_accumulated_info_Some in Hget as (Hr & Hname & Hfirst); [|done].
  assert (end_calc_accumulated_info s !!! r
          = {| task_name := name; time := time (s !!! r); is_running := false |})
    as Hslot.
  { rewrite end_calc_lookup by done. unfold end_slot. by rewrite Hrun, Hname. }
  split; [|done].
  apply get_accumulated_info_Some; [by apply end_calc_wf|].
  pose proof (end_calc_wf s Hwf) as Hwf'. unfold table_wf in Hwf, Hwf'.
  rewrite Hwf', <-Hwf. split; [done|]. rewrite Hslot. split; [done|].
  intros j Hj. rewrite end_calc_lookup; [|done|lia]. unfold end_slot.
  destruct (is_running (s !!! j)); simpl; [apply Hfirst; lia | congruence].
Qed.

(** The sweep evicts a name none of whose slots is marked. *)
Lemma end_calc_drops_unseen name (s : table) :
  table_wf s → name ≠ NULL →
  (∀ j, j < length s → task_name (s !!! j) = name → is_running (s !!! j) = false) →
  get_accumulated_info name (end_calc_accumulated_info s) = None.
Proof.
  intros Hwf Hnn Hunseen.
  apply get_accumulated_info_None; [by apply end_calc_wf|].
  pose proof (end_calc_wf s Hwf) as Hwf'. unfold table_wf in Hwf, Hwf'.
  rewrite Hwf', <-Hwf. intros j Hj.
  rewrite end_calc_lookup by done. unfold end_slot.
  destruct (is_running (s !!! j)) eqn:Hrun; simpl; [|congruence].
  intros Heq. specialize (Hunseen j Hj Heq). congruence.
Qed.

(** X4. A non-[NULL] name recorded during the pass is found at the same slot
    after [end_calc_accumulated_info], with the time the record gave it (the
    earlier time plus the delta, or the delta for a new record) and without
    the mark. *)
Theorem recorded_name_survives_sweep (info : accumulated_info_t) (s : table) :
  table_wf s → task_name info ≠ NULL → ¬ table_full (task_name info) s →
  ∃ r,
    get_accumulated_info (task_name info) (set_accumulated_info info s).1 = Some r
    ∧ get_accumulated_info (task_name info)
        (end_calc_accumulated_info (set_accumulated_info info s).1) = Some r
    ∧ end_calc_accumulated_info (set_accumulated_info info s).1 !!! r
      = {| task_name := task_name info;
           time := match record_of (task_name info) s with
                   | Some e0 => wrap64 (time e0 + time info)
                   | None => time info
                   end;
           is_running := false |}.
Proof.
  intros Hwf Hnn Hroom.
  destruct (set_accumulated_info_written info s Hwf Hroom)
    as (r & e & Hr & Hs1 & _ & Hget & Hname & Hrun & Htime & _).
  assert (table_wf (set_accumulated_info info s).1) as Hwf1
    by (by apply set_accumulated_info_wf).
  rewrite <-Hs1 in Hget.
  exists r. split; [done|].
  destruct (end_calc_keeps_seen (task_name info) _ r Hwf1 Hnn Hget) as [Hget2 Hslot].
  { rewrite Hs1. by rewrite list_lookup_total_insert_eq. }
  split; [done|]. rewrite Hslot. f_equal.
  rewrite Hs1 at 1. rewrite list_lookup_total_insert_eq by done. done.
Qed.

(** X6. [stats_reset_accumulated_infos] turns any table into the zero-initialised
    one and logs once; afterwards no non-[NULL] name is found, while a lookup
    of [NULL] yields slot 0. *)
Theorem reset_empties_table (s : table) :
  table_wf s →
  stats_reset_accumulated_infos s
    = (initial_table, [Log LOGI "reseted accumulated infos"])
  ∧ (∀ name, name ≠ NULL →
       get_accumulated_info name (stats_reset_accumulated_infos s).1 = None)
  ∧ get_accumulated_info NULL (stats_reset_accumulated_infos s).1 = Some 0.
Proof.
  intros Hwf.
  assert ((stats_reset_accumulated_infos s).1 = initial_table) as Heq.
  { apply list_eq_total.
    - by rewrite (reset_wf s Hwf).
    - intros j Hj. rewrite (reset_wf s Hwf : length _ = _) in Hj.
      rewrite reset_lookup by (done || by rewrite Hwf).
      unfold initial_table. by rewrite lookup_total_replicate_2. }
  split; [|rewrite Heq; split].
  - unfold stats_reset_accumulated_infos. f_equal. exact Heq.
  - intros name Hname. apply get_accumulated_info_None; [apply initial_table_wf|].
    intros j Hj. unfold initial_table in *. rewrite length_replicate in Hj.
    rewrite lookup_total_replicate_2 by done. simpl. congruence.
  - reflexivity.
Qed.

(** X5. Two end-of-pass sweeps with no record in between leave the table as the
    zero-initialised one: every record is evicted after two passes in which
    it was not seen. *)
Theorem two_sweeps_empty_table (s : table) :
  table_wf s →
  end_calc_accumulated_info (end_calc_accumulated_info s) = initial_table.
Proof.
  intros Hwf. pose proof (end_calc_wf s Hwf) as Hwf1.
  pose proof (end_calc_wf _ Hwf1) as Hwf2. unfold table_wf in Hwf, Hwf1, Hwf2.
  apply list_eq_total.
  - rewrite Hwf2. reflexivity.
  - intros j Hj. rewrite Hwf2 in Hj.
    rewrite end_calc_lookup; [| exact Hwf1 | rewrite Hwf1; exact Hj].
    rewrite end_calc_lookup; [| exact Hwf | rewrite Hwf; exact Hj].
    unfold initial_table. rewrite lookup_total_replicate_2 by exact Hj.
    unfold end_slot. destruct (is_running (s !!! j)); reflexivity.
Qed.

Lemma slots_clean_set info (s : table) :
  table_wf s → task_name info ≠ NULL → slots_clean s →
  slots_clean (set_accumulated_info info s).1.
Proof.
  intros Hwf Hnn Hclean.
  destruct (set_accumulated_info_cases info s Hwf)
    as [(r & Hr & ->) | [(d & Hr & Hd & ->) | [_ ->]]]; simpl; [| |done].
  - apply first_index_Some in Hr as (Hlt & Hname & _).
    apply holds_name_true in Hname.
    intros j. rewrite length_insert. intros Hj.
    destruct (decide (r = j)) as [<-|Hne].
    + rewrite list_lookup_total_insert_eq by done. simpl. congruence.
    + rewrite list_lookup_total_insert_ne by done. by apply Hclean.
  - apply first_index_Some in Hd as (Hlt & _ & _).
    intros j. rewrite length_insert. intros Hj.
    destruct (decide (d = j)) as [<-|Hne].
    + rewrite list_lookup_total_insert_eq by done. simpl. congruence.
    + rewrite list_lookup_total_insert_ne by done. by apply Hclean.
Qed.

Lemma slots_clean_end_calc (s : table) :
  table_wf s → slots_clean s → slots_clean (end_calc_accumulated_info s).
Proof.
  intros Hwf Hclean j.
  pose proof (end_calc_wf s Hwf) as Hwf'. unfold table_wf in Hwf, Hwf'.
  rewrite Hwf', <-Hwf. intros Hj. rewrite end_calc_lookup by done.
  unfold end_slot. destruct (is_running (s !!! j)); simpl.
  - intros Hnull. split; [|reflexivity]. apply Hclean; assumption.
  - intros _. split; reflexivity.
Qed.

Lemma slots_clean_run_op o (s : table) :
  table_wf s → op_ok o → slots_clean s → slots_clean (run_op o s).
Proof.
  intros Hwf Hok Hclean. destruct o as [info| |].
  - by apply slots_clean_set.
  - by apply slots_clean_end_calc.
  - intros j. pose proof (reset_wf s Hwf) as Hwf'. unfold table_wf in Hwf, Hwf'.
    cbn [run_op]. rewrite Hwf', <-Hwf. intros Hj.
    by rewrite reset_lookup.
Qed.

(** X7. As long as records carry non-[NULL] names, every free slot has time 0 and
    no [is_running] mark, whatever the sequence of records, sweeps and
    resets. *)
Theorem free_slots_stay_zeroed (ops : list table_op) (s : table) :
  Forall op_ok ops → table_wf s → slots_clean s →
  slots_clean (foldl (λ s o, run_op o s) s ops).
Proof.
  intros Hops. revert s. induction Hops as [|o ops Hok _ IH]; intros s Hwf Hclean; [done|].
  simpl. apply IH; [by apply run_op_wf | by apply slots_clean_run_op].
Qed.

Lemma slots_clean_initial : slots_clean initial_table.
Proof.
  intros j Hj _. unfold initial_table in *. rewrite length_replicate in Hj.
  by rewrite lookup_total_replicate_2.
Qed.

Lemma free_slots_stay_zeroed_witness :
  slots_clean
    (foldl (λ s o, run_op o s) initial_table
       [OpRecord {| task_name := 7; time := 5; is_running := false |};
        OpEndPass;
        OpEndPass;
        OpRecord {| task_name := 8; time := 1; is_running := false |}]).
Proof.
  apply free_slots_stay_zeroed;
    [repeat constructor; simpl; discriminate | reflexivity | apply slots_clean_initial].
Defined.

(** Without the proviso a free slot does not stay zeroed: recording under the
    [NULL] name marks the first free slot and adds to its time. *)
Lemma null_name_dirties_free_slot :
  (set_accumulated_info {| task_name := NULL; time := 5; is_running := false |}
     initial_table).1 !!! 0
  = {| task_name := NULL; time := 5; is_running := true |}.
Proof. reflexivity. Qed.

Lemma lookup_after_record_witness :
  (∃ r, get_accumulated_info 7
          (set_accumulated_info {| task_name := 7; time := 5; is_running := false |}
             two_tasks_table).1 = Some r
        ∧ task_name ((set_accumulated_info
                        {| task_name := 7; time := 5; is_running := false |}
                        two_tasks_table).1 !!! r) = 7%Z
        ∧ is_running ((set_accumulated_info
                         {| task_name := 7; time := 5; is_running := false |}
                         two_tasks_table).1 !!! r) = true
        ∧ (set_accumulated_info {| task_name := 7; time := 5; is_running := false |}
             two_tasks_table).2 = [])
  ∧ get_accumulated_info 7
      (set_accumulated_info {| task_name := 7; time := 5; is_running := false |}
         full_table).1 = None.
Proof.
  split.
  - apply (lookup_after_record {| task_name := 7; time := 5; is_running := false |}
             two_tasks_table); [reflexivity|].
    intros Hfull. destruct (Hfull 2) as [_ Hnn]; [simpl; lia|]. by apply Hnn.
  - apply (lookup_after_record {| task_name := 7; time := 5; is_running := false |}
             full_table); [reflexivity|].
    intros j Hj. each_slot j Hj.
Defined.

Lemma record_leaves_other_names_witness :
  record_of 100
    (set_accumulated_info {| task_name := 7; time := 5; is_running := false |}
       two_tasks_table).1
  = record_of 100 two_tasks_table.
Proof.
  apply (record_leaves_other_names
           {| task_name := 7; time := 5; is_running := false |} two_tasks_table 100);
    [reflexivity | discriminate | discriminate].
Defined.

Lemma recorded_name_survives_sweep_witness :
  ∃ r,
    get_accumulated_info 101
      (set_accumulated_info {| task_name := 101; time := 5; is_running := false |}
         two_tasks_table).1 = Some r
    ∧ get_accumulated_info 101
        (end_calc_accumulated_info
           (set_accumulated_info {| task_name := 101; time := 5; is_running := false |}
              two_tasks_table).1) = Some r
    ∧ end_calc_accumulated_info
        (set_accumulated_info {| task_name := 101; time := 5; is_running := false |}
           two_tasks_table).1 !!! r
      = {| task_name := 101;
           time := match record_of 101 two_tasks_table with
                   | Some e0 => wrap64 (time e0 + 5)
                   | None => 5
                   end;
           is_running := false |}.
Proof.
  apply (recorded_name_survives_sweep
           {| task_name := 101; time := 5; is_running := false |} two_tasks_table);
    [reflexivity | discriminate |].
  intros Hfull. destruct (Hfull 2) as [_ Hnn]; [simpl; lia|]. by apply Hnn.
Defined.

Lemma reset_empties_table_witness :
  stats_reset_accumulated_infos two_tasks_table
    = (initial_table, [Log LOGI "reseted accumulated infos"])
  ∧ (∀ name, name ≠ NULL →
       get_accumulated_info name (stats_reset_accumulated_infos two_tasks_table).1 = None)
  ∧ get_accumulated_info NULL (stats_reset_accumulated_infos two_tasks_table).1 = Some 0.
Proof. apply reset_empties_table. reflexivity. Defined.

Lemma two_sweeps_empty_table_witness :
  end_calc_accumulated_info (end_calc_accumulated_info two_tasks_table) = initial_table.
Proof. apply two_sweeps_empty_table. reflexivity. Defined.

(** X1. [get_accumulated_info] returns the first slot whose [task_name] is the
    name it is given, and [NULL] exactly when no slot has it. *)
Theorem lookup_finds_first_holder (name : ptr) (s : table) :
  table_wf s →
  (∀ r, get_accumulated_info name s = Some r ↔
        r < length s ∧ task_name (s !!! r) = name
        ∧ ∀ j, j < r → task_name (s !!! j) ≠ name)
  ∧ (get_accumulated_info name s = None ↔
     ∀ j, j < length s → task_name (s !!! j) ≠ name).
Proof.
  intros Hwf. split.
  - intros r. by apply get_accumulated_info_Some.
  - by apply get_accumulated_info_None.
Qed.

Lemma lookup_finds_first_holder_witness :
  get_accumulated_info 101 two_tasks_table = Some 1
  ∧ get_accumulated_info 7 full_table = None.
Proof.
  split.
  - apply (lookup_finds_first_holder 101 two_tasks_table eq_refl).
    split; [simpl; lia|]. split; [reflexivity|].
    intros j Hj. destruct j as [|j]; [vm_compute; discriminate | lia].
  - apply (lookup_finds_first_holder 7 full_table eq_refl).
    intros j Hj. each_slot j Hj.
Defined.

(** * More on the reconciler *)

Lemma triple_inj {A B C} (a a' : A) (b b' : B) (c c' : C) :
  (a, b, c) = (a', b', c') → a = a' ∧ b = b' ∧ c = c'.
Proof. by intros [= -> -> ->]. Qed.


Section MatchStep.
Variable P : Z.
Variable tp : trap_point.
Variable total : Z.

(** An iteration whose entry has a partner, in full. *)
Lemma match_body_matched i k (st : pass_state) :
  find_handle_loop (length (end_array st)) 0
    (xHandle (start_array st !!! i)) (end_array st) = Some k →
  let start' := <[i := set_xHandle NULL (start_array st !!! i)]> (start_array st) in
  let end' := <[k := set_xHandle NULL (end_array st !!! k)]> (end_array st) in
  let name := pcTaskName (start_array st !!! i) in
  let el := wrap32 (ulRunTimeCounter (end_array st !!! k)
                    - ulRunTimeCounter (start_array st !!! i)) in
  let buf := {| task_name := name; time := el; is_running := false |} in
  let infos' := (set_accumulated_info buf (infos st)).1 in
  let logged := (set_accumulated_info buf (infos st)).2 in
  match_body P tp total i st =
    if (wrap32 (total * P) =? 0)%Z && trap_point_eqb tp TrapAtDivision then
      inr (DivisionByZero,
           {| start_array := start'; end_array := end';
              infos := infos st; output := output st |})
    else if (wrap32 (total * P) =? 0)%Z && trap_point_eqb tp TrapBeforeRead then
      inr (DivisionByZero,
           {| start_array := start'; end_array := end';
              infos := infos'; output := output st ++ logged |})
    else
      match get_accumulated_info name infos' with
      | None =>
          inr (NullDereference,
               {| start_array := start'; end_array := end';
                  infos := infos'; output := output st ++ logged |})
      | Some r =>
          if (wrap32 (total * P) =? 0)%Z then
            inr (DivisionByZero,
                 {| start_array := start'; end_array := end';
                    infos := infos'; output := output st ++ logged |})
          else
            inl {| start_array := start'; end_array := end'; infos := infos';
                   output := output st ++ logged ++
                     [PrintRow i k name el (time (infos' !!! r))
                        (wrap32 (el * 100) / wrap32 (total * P))] |}
      end.
Proof.
  intros Hfind. cbv zeta. unfold match_body. rewrite Hfind. cbv zeta.
  destruct (set_xHandle_lookup_data NULL (start_array st) i i) as [-> ->].
  destruct (set_xHandle_lookup_data NULL (end_array st) k k) as [_ ->].
  by destruct (set_accumulated_info _ (infos st)) as [infos' logged].
Qed.

(** The same with a divisor that is not zero: where a division by zero would
    trap plays no part. *)
Lemma match_body_matched_nz i k (st : pass_state) :
  wrap32 (total * P) ≠ 0%Z →
  find_handle_loop (length (end_array st)) 0
    (xHandle (start_array st !!! i)) (end_array st) = Some k →
  let start' := <[i := set_xHandle NULL (start_array st !!! i)]> (start_array st) in
  let end' := <[k := set_xHandle NULL (end_array st !!! k)]> (end_array st) in
  let name := pcTaskName (start_array st !!! i) in
  let el := wrap32 (ulRunTimeCounter (end_array st !!! k)
                    - ulRunTimeCounter (start_array st !!! i)) in
  let buf := {| task_name := name; time := el; is_running := false |} in
  let infos' := (set_accumulated_info buf (infos st)).1 in
  let logged := (set_accumulated_info buf (infos st)).2 in
  match_body P tp total i st =
    match get_accumulated_info name infos' with
    | None =>
        inr (NullDereference,
             {| start_array := start'; end_array := end';
                infos := infos'; output := output st ++ logged |})
    | Some r =>
        inl {| start_array := start'; end_array := end'; infos := infos';
               output := output st ++ logged ++
                 [PrintRow i k name el (time (infos' !!! r))
                    (wrap32 (el * 100) / wrap32 (total * P))] |}
    end.
Proof.
  intros Hnz%Z.eqb_neq Hfind. rewrite (match_body_matched i k st Hfind).
  cbv zeta. rewrite Hnz. reflexivity.
Qed.

(** With a zero divisor an iteration with a match traps: at the division,
    with the table and the output as they were, or after
    [set_accumulated_info] has run. *)
Lemma match_body_matched_zero i k (st : pass_state) :
  wrap32 (total * P) = 0%Z →
  find_handle_loop (length (end_array st)) 0
    (xHandle (start_array st !!! i)) (end_array st) = Some k →
  let buf := {| task_name := pcTaskName (start_array st !!! i);
                time := wrap32 (ulRunTimeCounter (end_array st !!! k)
                                - ulRunTimeCounter (start_array st !!! i));
                is_running := false |} in
  ∃ f st', match_body P tp total i st = inr (f, st')
    ∧ ((infos st' = infos st ∧ output st' = output st)
       ∨ (infos st' = (set_accumulated_info buf (infos st)).1
          ∧ output st' = output st ++ (set_accumulated_info buf (infos st)).2)).
Proof.
  intros Hz%Z.eqb_eq Hfind. rewrite (match_body_matched i k st Hfind).
  cbv zeta. rewrite Hz.
  destruct tp; cbn [andb trap_point_eqb].
  - eexists _, _. split; [reflexivity|]. left. by split.
  - eexists _, _. split; [reflexivity|]. right. by split.
  - destruct (get_accumulated_info _ _);
      (eexists _, _; split; [reflexivity|]; right; by split).
Qed.

Lemma match_body_unmatched i (st : pass_state) :
  find_handle_loop (length (end_array st)) 0
    (xHandle (start_array st !!! i)) (end_array st) = None →
  match_body P tp total i st = inl st.
Proof. intros Hfind. unfold match_body. by rewrite Hfind. Qed.

Lemma match_body_infos_wf i (st : pass_state) :
  table_wf (infos st) → table_wf (infos (final_state (match_body P tp total i st))).
Proof.
  intros Hwf.
  destruct (find_handle_loop (length (end_array st)) 0
              (xHandle (start_array st !!! i)) (end_array st)) as [k|] eqn:Hfind.
  - destruct (decide (wrap32 (total * P) = 0%Z)) as [Hz|Hnz].
    + destruct (match_body_matched_zero i k st Hz Hfind)
        as (f & st' & -> & Hst'); cbn [final_state].
      destruct Hst' as [[-> _]|[-> _]]; [exact Hwf|].
      by apply set_accumulated_info_wf.
    + rewrite (match_body_matched_nz i k st Hnz Hfind). cbv zeta.
      destruct (get_accumulated_info _ _); simpl; by apply set_accumulated_info_wf.
  - by rewrite match_body_unmatched.
Qed.

Lemma match_loop_infos_wf fuel i (st : pass_state) :
  table_wf (infos st) → table_wf (infos (final_state (match_loop P tp fuel i total st))).
Proof.
  revert i st. induction fuel as [|fuel IH]; intros i st Hwf; simpl; [done|].
  pose proof (match_body_infos_wf i st Hwf) as Hbody.
  destruct (match_body P tp total i st) as [st'|[f st']]; simpl in *; [|done].
  by apply IH.
Qed.

End MatchStep.

(** X8. When [print_real_time_stats] returns an error it has printed nothing and
    left the table as it was; [ESP_ERR_NO_MEM] means an allocation failed,
    [ESP_ERR_INVALID_SIZE] that a capture came back empty and
    [ESP_ERR_INVALID_STATE] that the [uint32_t] run-time difference is 0. *)
Theorem failed_pass_has_no_effect
    (P : Z) (tp : trap_point) (start_cap end_cap : capture) (s s' : table)
    (e : esp_err_t) (out : list event) :
  print_real_time_stats P tp start_cap end_cap s = (Returned e, s', out) →
  e ≠ ESP_OK →
  s' = s ∧ out = []
  ∧ (e = ESP_ERR_NO_MEM → malloc_ok start_cap = false ∨ malloc_ok end_cap = false)
  ∧ (e = ESP_ERR_INVALID_SIZE → task_array start_cap = [] ∨ task_array end_cap = [])
  ∧ (e = ESP_ERR_INVALID_STATE →
     wrap32 (run_time end_cap - run_time start_cap) = 0%Z).
Proof.
  unfold print_real_time_stats. intros Hrun Hne. revert Hrun.
  destruct (negb (malloc_ok start_cap)) eqn:Hm1.
  { apply negb_true_iff in Hm1. intros [= <- <- <-]. repeat split; first [done | auto]. }
  destruct (length (task_array start_cap) =? 0)%nat eqn:Hs.
  { apply Nat.eqb_eq, nil_length_inv in Hs. intros [= <- <- <-]. repeat split; first [done | auto]. }
  destruct (negb (malloc_ok end_cap)) eqn:Hm2.
  { apply negb_true_iff in Hm2. intros [= <- <- <-]. repeat split; first [done | auto]. }
  destruct (length (task_array end_cap) =? 0)%nat eqn:He.
  { apply Nat.eqb_eq, nil_length_inv in He. intros [= <- <- <-]. repeat split; first [done | auto]. }
  destruct (wrap32 (run_time end_cap - run_time start_cap) =? 0)%Z eqn:Hz.
  { apply Z.eqb_eq in Hz. intros [= <- <- <-]. repeat split; first [done | auto]. }
  intros Hrun. exfalso. apply Hne.
  destruct (match_loop _ _ _ _ _ _) as [st|[f st]];
    apply triple_inj in Hrun as (Hret & _ & _); congruence.
Qed.

Lemma failed_pass_has_no_effect_witness :
  two_tasks_table = two_tasks_table ∧ @nil event = []
  ∧ (ESP_ERR_INVALID_SIZE = ESP_ERR_NO_MEM → true = false ∨ true = false)
  ∧ (ESP_ERR_INVALID_SIZE = ESP_ERR_INVALID_SIZE →
     [task 11 101 1000] = [] ∨ @nil TaskStatus_t = [])
  ∧ (ESP_ERR_INVALID_SIZE = ESP_ERR_INVALID_STATE → wrap32 (7 - 5) = 0%Z).
Proof.
  apply (failed_pass_has_no_effect 2 TrapAtDivision
           (captured [task 11 101 1000] 5) (captured [] 7)
           two_tasks_table two_tasks_table ESP_ERR_INVALID_SIZE []);
    [reflexivity | discriminate].
Defined.

(** X9. After a pass that returns [ESP_OK] the table still has its sixteen slots
    and none of them carries the [is_running] mark. *)
Theorem successful_pass_clears_marks
    (P : Z) (tp : trap_point)
    (start_cap end_cap : capture) (s s' : table) (out : list event) :
  table_wf s →
  print_real_time_stats P tp start_cap end_cap s = (Returned ESP_OK, s', out) →
  table_wf s' ∧ all_idle s'.
Proof.
  intros Hwf. unfold print_real_time_stats.
  repeat (match goal with |- context [if ?b then _ else _] => destruct b end;
          [discriminate|]).
  pose proof (match_loop_infos_wf P tp (wrap32 (run_time end_cap - run_time start_cap))
                (length (task_array start_cap)) 0
                {| start_array := task_array start_cap;
                   end_array := task_array end_cap;
                   infos := s; output := [PrintHeader] |} Hwf) as Hwf1.
  destruct (match_loop _ _ _ _ _ _) as [st|[f st]]; [|discriminate].
  change (table_wf (infos st)) in Hwf1.
  intros (_ & <- & _)%triple_inj.
  split; [by apply end_calc_wf|].
  intros j Hj. pose proof (end_calc_wf _ Hwf1) as Hwf2.
  unfold table_wf in Hwf1, Hwf2. rewrite Hwf2, <-Hwf1 in Hj.
  rewrite end_calc_lookup by done. unfold end_slot.
  by destruct (is_running (infos st !!! j)).
Qed.

Lemma successful_pass_clears_marks_witness :
  let s' := (print_real_time_stats 2 TrapAtDivision
               (captured [task 11 101 1000; task 12 102 500] 0)
               (captured [task 11 101 1400; task 12 102 900; task 13 103 50] 1000)
               two_tasks_table).1.2 in
  table_wf s' ∧ all_idle s'.
Proof.
  intros s'.
  apply (successful_pass_clears_marks 2 TrapAtDivision
           (captured [task 11 101 1000; task 12 102 500] 0)
           (captured [task 11 101 1400; task 12 102 900; task 13 103 50] 1000)
           two_tasks_table s'
           (print_real_time_stats 2 TrapAtDivision
              (captured [task 11 101 1000; task 12 102 500] 0)
              (captured [task 11 101 1400; task 12 102 900; task 13 103 50] 1000)
              two_tasks_table).2);
    [reflexivity | vm_compute; reflexivity].
Defined.

(** ** A zero divisor *)




(** ** Room in the table *)

Lemma count_free_insert (s : table) r e :
  count_free s ≤ S (count_free (<[r := e]> s)).
Proof.
  unfold count_free. revert r. induction s as [|a s IH]; intros r; [simpl; lia|].
  destruct r as [|r]; simpl.
  - destruct (is_free a), (is_free e); simpl; lia.
  - specialize (IH r). destruct (is_free a); simpl; lia.
Qed.

Lemma count_free_none (s : table) :
  (∀ j, j < length s → task_name (s !!! j) ≠ NULL) → count_free s = 0.
Proof.
  unfold count_free. induction s as [|a s IH]; intros Hnone; [done|].
  simpl. assert (is_free a = false) as ->.
  { apply is_free_false. apply (Hnone 0). simpl. lia. }
  apply IH. intros j Hj. apply (Hnone (S j)). simpl. lia.
Qed.

Lemma match_loop_with_room P tp total fuel i (st : pass_state) :
  wrap32 (total * P) ≠ 0%Z → table_wf (infos st) →
  fuel ≤ count_free (infos st) →
  ∃ st', match_loop P tp fuel i total st = inl st'.
Proof.
  intros Hnz. revert i st. induction fuel as [|fuel IH]; intros i st Hwf Hroom.
  { simpl. eauto. }
  cbn [match_loop].
  destruct (find_handle_loop (length (end_array st)) 0
              (xHandle (start_array st !!! i)) (end_array st)) as [k|] eqn:Hfind.
  2: { rewrite (match_body_unmatched P tp total i st Hfind). apply IH; [done|lia]. }
  rewrite (match_body_matched_nz P tp total i k st Hnz Hfind). cbv zeta.
  set (buf := {| task_name := pcTaskName (start_array st !!! i) |}).
  destruct (set_accumulated_info_written buf (infos st) Hwf)
    as (r & e & Hr & Hs1 & _ & Hget & _).
  { intros Hfull. rewrite count_free_none in Hroom; [lia|].
    intros j Hj. by apply Hfull. }
  change (pcTaskName (start_array st !!! i)) with (task_name buf).
  rewrite Hs1, Hget. apply IH; cbn [infos].
  - by apply insert_wf.
  - pose proof (count_free_insert (infos st) r e). lia.
Qed.

(** X10. A pass over no more start entries than the table has free slots returns
    [ESP_OK], provided the captures were taken, the window is not degenerate
    and the 32-bit divisor is not 0. *)
Theorem pass_with_room_completes
    (P : Z) (tp : trap_point) (start_cap end_cap : capture) (s : table) :
  malloc_ok start_cap = true → task_array start_cap ≠ [] →
  malloc_ok end_cap = true → task_array end_cap ≠ [] →
  wrap32 (run_time end_cap - run_time start_cap) ≠ 0%Z →
  wrap32 (wrap32 (run_time end_cap - run_time start_cap) * P) ≠ 0%Z →
  table_wf s →
  length (task_array start_cap) ≤ count_free s →
  (print_real_time_stats P tp start_cap end_cap s).1.1 = Returned ESP_OK.
Proof.
  intros Hm1 Hs Hm2 He Htotal Hnz Hwf Hroom.
  unfold print_real_time_stats. rewrite Hm1, Hm2. cbn [negb].
  destruct (length (task_array start_cap) =? 0)%nat eqn:E1.
  { apply Nat.eqb_eq, nil_length_inv in E1. done. }
  destruct (length (task_array end_cap) =? 0)%nat eqn:E2.
  { apply Nat.eqb_eq, nil_length_inv in E2. done. }
  apply Z.eqb_neq in Htotal. rewrite Htotal.
  destruct (match_loop_with_room P tp
              (wrap32 (run_time end_cap - run_time start_cap))
              (length (task_array start_cap)) 0
              {| start_array := task_array start_cap; end_array := task_array end_cap;
                 infos := s; output := [PrintHeader] |} Hnz Hwf Hroom)
    as (st' & ->).
  done.
Qed.

Lemma pass_with_room_completes_witness :
  (print_real_time_stats 2 TrapAtDivision
     (captured (n_tasks 14 0) 0) (captured (n_tasks 14 400) 1000)
     two_tasks_table).1.1 = Returned ESP_OK.
Proof.
  apply pass_with_room_completes;
    solve [reflexivity | discriminate | vm_compute; discriminate | vm_compute; lia].
Defined.

(** ** What a pass does to the table *)

Lemma row_names_app (l1 l2 : list event) :
  row_names (l1 ++ l2) = row_names l1 ++ row_names l2.
Proof. unfold row_names. apply omap_app. Qed.

Lemma row_names_deleted fuel i (l : list TaskStatus_t) :
  row_names (deleted_loop fuel i l) = [].
Proof.
  revert i. induction fuel as [|fuel IH]; intros i; [done|].
  cbn [deleted_loop]. rewrite row_names_app, IH.
  by destruct (xHandle (l !!! i) =? NULL)%Z.
Qed.

Lemma row_names_created fuel i (l : list TaskStatus_t) :
  row_names (created_loop fuel i l) = [].
Proof.
  revert i. induction fuel as [|fuel IH]; intros i; [done|].
  cbn [created_loop]. rewrite row_names_app, IH.
  by destruct (xHandle (l !!! i) =? NULL)%Z.
Qed.

Lemma row_names_snoc (out logged : list event) i k name el acc pct (x : ptr) :
  x ∈ row_names out ∨ x = name →
  x ∈ row_names (out ++ logged ++ [PrintRow i k name el acc pct]).
Proof.
  rewrite !row_names_app. intros [Hx| ->]; rewrite !elem_of_app; [by left|].
  right. right. by apply list_elem_of_singleton.
Qed.

Section Marks.
Variable P : Z.
Variable tp : trap_point.
Variable total : Z.

Lemma match_body_marks i (st st' : pass_state) :
  table_wf (infos st) → marks_explained st →
  match_body P tp total i st = inl st' → marks_explained st'.
Proof.
  intros Hwf Hmarks.
  destruct (find_handle_loop (length (end_array st)) 0
              (xHandle (start_array st !!! i)) (end_array st)) as [k|] eqn:Hfind.
  2: { rewrite (match_body_unmatched P tp total i st Hfind). by intros [= <-]. }
  destruct (decide (wrap32 (total * P) = 0%Z)) as [Hz|Hnz].
  { by destruct (match_body_matched_zero P tp total i k st Hz Hfind)
      as (f & st0 & -> & _). }
  rewrite (match_body_matched_nz P tp total i k st Hnz Hfind). cbv zeta.
  set (buf := {| task_name := pcTaskName (start_array st !!! i) |}).
  change (pcTaskName (start_array st !!! i)) with (task_name buf).
  destruct (get_accumulated_info (task_name buf) (set_accumulated_info buf (infos st)).1)
    as [r0|]; [|done].
  intros [= <-]. unfold marks_explained. cbn [infos output].
  destruct (set_accumulated_info_cases buf (infos st) Hwf)
    as [(r & Hr & Heq) | [(d & Hr & Hd & Heq) | [_ Heq]]]; rewrite Heq; cbn [fst snd].
  - apply first_index_Some in Hr as (Hlt & Hname & _).
    apply holds_name_true in Hname.
    intros j. rewrite length_insert. intros Hj Hrun. apply row_names_snoc.
    destruct (decide (r = j)) as [<-|Hne].
    + right. rewrite list_lookup_total_insert_eq by exact Hlt. exact Hname.
    + left. rewrite list_lookup_total_insert_ne in Hrun |- * by exact Hne.
      by apply Hmarks.
  - apply first_index_Some in Hd as (Hlt & _ & _).
    intros j. rewrite length_insert. intros Hj Hrun. apply row_names_snoc.
    destruct (decide (d = j)) as [<-|Hne].
    + right. by rewrite list_lookup_total_insert_eq.
    + left. rewrite list_lookup_total_insert_ne in Hrun |- * by exact Hne.
      by apply Hmarks.
  - intros j Hj Hrun. apply row_names_snoc. left. by apply Hmarks.
Qed.

Lemma match_loop_marks fuel i (st st' : pass_state) :
  table_wf (infos st) → marks_explained st →
  match_loop P tp fuel i total st = inl st' →
  table_wf (infos st') ∧ marks_explained st'.
Proof.
  revert i st. induction fuel as [|fuel IH]; intros i st Hwf Hmarks; cbn [match_loop].
  { by intros [= <-]. }
  pose proof (match_body_infos_wf P tp total i st Hwf) as Hwf1.
  destruct (match_body P tp total i st) as [st1|] eqn:Hbody; [|done].
  apply IH; [exact Hwf1|]. by apply (match_body_marks i st).
Qed.

End Marks.

(** X14. After a pass that returns [ESP_OK], started from a table without marks, a
    non-[NULL] name that is on no row of the report is no longer found. *)
Theorem pass_evicts_unmatched
    (P : Z) (tp : trap_point)
    (start_cap end_cap : capture) (s s' : table) (out : list event)
    (name : ptr) :
  table_wf s → all_idle s →
  print_real_time_stats P tp start_cap end_cap s = (Returned ESP_OK, s', out) →
  name ≠ NULL → name ∉ row_names out →
  get_accumulated_info name s' = None.
Proof.
  intros Hwf Hidle. unfold print_real_time_stats.
  destruct (negb (malloc_ok start_cap)); [discriminate|].
  destruct (length (task_array start_cap) =? 0)%nat; [discriminate|].
  destruct (negb (malloc_ok end_cap)); [discriminate|].
  destruct (length (task_array end_cap) =? 0)%nat; [discriminate|].
  destruct (wrap32 (run_time end_cap - run_time start_cap) =? 0)%Z; [discriminate|].
  destruct (match_loop _ _ _ _ _ _) as [st|[f st]] eqn:Hloop; [|discriminate].
  apply match_loop_marks in Hloop as [Hwf1 Hmarks]; [|exact Hwf|].
  2: { intros j Hj Hrun. cbn [infos] in Hj, Hrun. rewrite Hidle in Hrun by exact Hj.
       discriminate Hrun. }
  intros (_ & <- & <-)%triple_inj Hnn Hnotin.
  rewrite !row_names_app, row_names_deleted, row_names_created, !app_nil_r in Hnotin.
  apply end_calc_drops_unseen; [exact Hwf1 | exact Hnn |].
  intros j Hj Hname.
  destruct (is_running (infos st !!! j)) eqn:Hrun; [|reflexivity].
  exfalso. apply Hnotin. rewrite <-Hname. by apply Hmarks.
Qed.

Lemma pass_evicts_unmatched_witness :
  get_accumulated_info 101 full_table = Some 1
  ∧ get_accumulated_info 101
      (print_real_time_stats 2 TrapAtDivision
         (captured [task 11 100 1000] 0) (captured [task 11 100 1400] 1000)
         full_table).1.2 = None.
Proof.
  split; [reflexivity|].
  apply (pass_evicts_unmatched 2 TrapAtDivision
           (captured [task 11 100 1000] 0) (captured [task 11 100 1400] 1000)
           full_table
           (print_real_time_stats 2 TrapAtDivision
              (captured [task 11 100 1000] 0) (captured [task 11 100 1400] 1000)
              full_table).1.2
           (print_real_time_stats 2 TrapAtDivision
              (captured [task 11 100 1000] 0) (captured [task 11 100 1400] 1000)
              full_table).2
           101).
  - reflexivity.
  - intros j Hj. each_slot j Hj.
  - vm_compute. reflexivity.
  - discriminate.
  - vm_compute. intros Hin. apply list_elem_of_In in Hin. simpl in Hin.
    destruct Hin as [Hin|[]]. discriminate Hin.
Defined.

Lemma names_inj (l : list TaskStatus_t) i j :
  NoDup (pcTaskName <$> l) → i < length l → j < length l →
  pcTaskName (l !!! i) = pcTaskName (l !!! j) → i = j.
Proof.
  intros Hnd Hi Hj Heq.
  apply (NoDup_lookup _ i j (pcTaskName (l !!! i)) Hnd);
    rewrite list_lookup_fmap, list_lookup_lookup_total_lt by done; simpl; congruence.
Qed.

Lemma name_not_null (l : list TaskStatus_t) i :
  NULL ∉ pcTaskName <$> l → i < length l → pcTaskName (l !!! i) ≠ NULL.
Proof.
  intros Hnn Hi Heq. apply Hnn. rewrite <-Heq.
  apply list_elem_of_fmap_2, list_elem_of_lookup_total. eauto.
Qed.

Lemma slot_eta (e : accumulated_info_t) name t :
  task_name e = name → time e = t → is_running e = true →
  e = {| task_name := name; time := t; is_running := true |}.
Proof. destruct e. simpl. by intros -> -> ->. Qed.

Section Accumulation.
Variable P : Z.
Variable tp : trap_point.
Variable total : Z.
Variable S0 : list TaskStatus_t.
Variable s : table.
Hypothesis Hnodup : NoDup (pcTaskName <$> S0).
Hypothesis Hnonull : NULL ∉ pcTaskName <$> S0.

Lemma match_body_acc_inv i (st st' : pass_state) :
  i < length S0 → acc_inv S0 s i st →
  match_body P tp total i st = inl st' → acc_inv S0 s (S i) st'.
Proof.
  intros Hi (Hwf & Hnames & Hrows & Hrest).
  destruct (find_handle_loop (length (end_array st)) 0
              (xHandle (start_array st !!! i)) (end_array st)) as [k|] eqn:Hfind.
  2: { rewrite (match_body_unmatched P tp total i st Hfind). intros [= <-].
       split; [exact Hwf|]. split; [exact Hnames|]. split.
       - intros i' k' name el acc pct Hin.
         destruct (Hrows i' k' name el acc pct Hin) as (Hlt & Hrow).
         split; [lia | exact Hrow].
       - intros name Hnn Hother. apply Hrest; [exact Hnn|].
         intros i' Hi'. apply Hother. lia. }
  destruct (decide (wrap32 (total * P) = 0%Z)) as [Hz|Hnz].
  { by destruct (match_body_matched_zero P tp total i k st Hz Hfind)
      as (f & st0 & -> & _). }
  rewrite (match_body_matched_nz P tp total i k st Hnz Hfind). cbv zeta.
  rewrite Hnames.
  set (n := pcTaskName (S0 !!! i)).
  set (el := wrap32 (ulRunTimeCounter (end_array st !!! k)
                     - ulRunTimeCounter (start_array st !!! i))).
  set (buf := {| task_name := n; time := el; is_running := false |}).
  assert (n ≠ NULL) as Hn by (by apply name_not_null).
  assert (∀ i', i' < i → pcTaskName (S0 !!! i') ≠ n) as Hfresh.
  { intros i' Hi' Heq. assert (i' = i); [|lia].
    apply (names_inj S0); [exact Hnodup | lia | exact Hi | exact Heq]. }
  destruct (get_accumulated_info n (set_accumulated_info buf (infos st)).1)
    as [r0|] eqn:Hget0; [|discriminate].
  assert (¬ table_full (task_name buf) (infos st)) as Hroom.
  { intros Hfull. rewrite set_accumulated_info_full in Hget0 by assumption.
    rewrite get_accumulated_info_absent in Hget0; [discriminate Hget0 | exact Hwf |].
    intros j Hj. by apply Hfull. }
  destruct (set_accumulated_info_written buf (infos st) Hwf Hroom)
    as (r & e & Hr & Hs1 & Hlog & Hget & Hname & Hrun & Htime & Hold).
  change (task_name buf) with n in Hget, Hname, Htime, Hold.
  change (time buf) with el in Htime.
  rewrite Hs1, Hlog in *. rewrite Hget in Hget0. injection Hget0 as <-.
  rewrite list_lookup_total_insert_eq by exact Hr.
  intros [= <-].
  assert (record_of n (infos st) = record_of n s) as Hsame
    by (apply Hrest; assumption).
  assert (time e = accumulated s n el) as Hacc.
  { unfold accumulated. rewrite <-Hsame. exact Htime. }
  assert (∀ m, m ≠ NULL → m ≠ n →
            record_of m (<[r := e]> (infos st)) = record_of m (infos st)) as Hframe.
  { intros m Hm Hmn. apply lookup_insert_other; [exact Hwf | exact Hr | | congruence].
    destruct Hold as [-> | ->]; congruence. }
  split; [by apply insert_wf|]. split; [|split]; cbn [start_array infos output].
  - intros j. destruct (set_xHandle_lookup_data NULL (start_array st) i j) as [-> _].
    apply Hnames.
  - intros i' k' name el' acc pct Hin.
    cbn [app] in Hin. apply elem_of_app in Hin as [Hin|Hin].
    + destruct (Hrows i' k' name el' acc pct Hin) as (Hlt & Hnm & Hac & Hrec).
      split; [lia|]. split; [exact Hnm|]. split; [exact Hac|].
      rewrite Hframe; [exact Hrec | |].
      * rewrite Hnm. apply name_not_null; [exact Hnonull | lia].
      * rewrite Hnm. by apply Hfresh.
    + apply list_elem_of_singleton in Hin. injection Hin as -> -> -> -> -> _.
      split; [lia|]. split; [reflexivity|]. split; [exact Hacc|].
      unfold record_of. rewrite Hget. cbn [fmap option_fmap option_map].
      rewrite list_lookup_total_insert_eq by exact Hr. f_equal.
      by apply slot_eta.
  - intros name Hnn Hother.
    rewrite Hframe; [| exact Hnn |].
    + apply Hrest; [exact Hnn|]. intros i' Hi'. apply Hother. lia.
    + intros ->. apply (Hother i); [lia | reflexivity].
Qed.

Lemma match_loop_acc_inv fuel i (st st' : pass_state) :
  i + fuel ≤ length S0 → acc_inv S0 s i st →
  match_loop P tp fuel i total st = inl st' → acc_inv S0 s (i + fuel) st'.
Proof.
  revert i st. induction fuel as [|fuel IH]; intros i st Hle Hinv; cbn [match_loop].
  { intros [= <-]. by rewrite Nat.add_0_r. }
  destruct (match_body P tp total i st) as [st1|] eqn:Hbody; [|discriminate].
  intros Hloop. replace (i + S fuel) with (S i + fuel) by lia.
  apply (IH (S i) st1); [lia | | exact Hloop].
  apply (match_body_acc_inv i st); [lia | exact Hinv | exact Hbody].
Qed.

End Accumulation.

(** X13. In a pass that returns [ESP_OK] over a start capture whose name pointers
    are distinct and non-[NULL], the accumulated time on a row is the time the
    table held for the name before the pass plus the elapsed time of the row
    ([uint64_t] addition), or the elapsed time alone for a name the table did
    not hold; after the pass the table holds exactly that total for the name,
    without the mark. *)
Theorem pass_accumulates
    (P : Z) (tp : trap_point)
    (start_cap end_cap : capture) (s s' : table) (out : list event)
    (i k : nat) (name el acc pct : Z) :
  table_wf s →
  NoDup (pcTaskName <$> task_array start_cap) →
  NULL ∉ pcTaskName <$> task_array start_cap →
  print_real_time_stats P tp start_cap end_cap s = (Returned ESP_OK, s', out) →
  PrintRow i k name el acc pct ∈ out →
  acc = accumulated s name el
  ∧ record_of name s' = Some {| task_name := name; time := acc; is_running := false |}.
Proof.
  intros Hwf Hnodup Hnonull. unfold print_real_time_stats.
  destruct (negb (malloc_ok start_cap)); [discriminate|].
  destruct (length (task_array start_cap) =? 0)%nat; [discriminate|].
  destruct (negb (malloc_ok end_cap)); [discriminate|].
  destruct (length (task_array end_cap) =? 0)%nat; [discriminate|].
  destruct (wrap32 (run_time end_cap - run_time start_cap) =? 0)%Z; [discriminate|].
  destruct (match_loop _ _ _ _ _ _) as [st|[f st]] eqn:Hloop; [|discriminate].
  apply (match_loop_acc_inv P tp _ (task_array start_cap) s Hnodup Hnonull) in Hloop;
    [|simpl; lia|].
  2: { split; [exact Hwf|]. split; [reflexivity|]. split.
       - intros i' k' name' el' acc' pct' Hin. cbn [output] in Hin.
         apply list_elem_of_singleton in Hin. discriminate Hin.
       - reflexivity. }
  destruct Hloop as (Hwf1 & _ & Hrows & _).
  intros (_ & <- & <-)%triple_inj Hin.
  apply elem_of_app in Hin as [Hin|Hin].
  2: { exfalso. apply elem_of_app in Hin
         as [(? & ? & Heq)%deleted_loop_no_row | (? & ? & Heq)%created_loop_no_row];
         discriminate Heq. }
  destruct (Hrows i k name el acc pct Hin) as (Hlt & Hnm & Hacc & Hrec).
  split; [exact Hacc|].
  assert (name ≠ NULL) as Hnn.
  { rewrite Hnm. apply name_not_null; [exact Hnonull | simpl in Hlt; lia]. }
  apply record_of_Some in Hrec as (r & Hget & Hslot); [|exact Hwf1].
  destruct (end_calc_keeps_seen name (infos st) r Hwf1 Hnn Hget) as [Hget2 Hslot2].
  { by rewrite <-Hslot. }
  unfold record_of. rewrite Hget2. cbn [fmap option_fmap option_map].
  rewrite Hslot2, <-Hslot. reflexivity.
Qed.

Lemma pass_accumulates_witness :
  470%Z = accumulated two_tasks_table 101 400
  ∧ record_of 101
      (print_real_time_stats 2 TrapAtDivision
         (captured [task 11 101 1000; task 12 102 500] 0)
         (captured [task 11 101 1400; task 12 102 900; task 13 103 50] 1000)
         two_tasks_table).1.2
    = Some {| task_name := 101; time := 470; is_running := false |}.
Proof.
  apply (pass_accumulates 2 TrapAtDivision
           (captured [task 11 101 1000; task 12 102 500] 0)
           (captured [task 11 101 1400; task 12 102 900; task 13 103 50] 1000)
           two_tasks_table
           (print_real_time_stats 2 TrapAtDivision
              (captured [task 11 101 1000; task 12 102 500] 0)
              (captured [task 11 101 1400; task 12 102 900; task 13 103 50] 1000)
              two_tasks_table).1.2
           (print_real_time_stats 2 TrapAtDivision
              (captured [task 11 101 1000; task 12 102 500] 0)
              (captured [task 11 101 1400; task 12 102 900; task 13 103 50] 1000)
              two_tasks_table).2
           0 0 101 400 470 20).
  - reflexivity.
  - apply (bool_decide_unpack _). vm_compute. exact I.
  - apply (bool_decide_unpack _). vm_compute. exact I.
  - vm_compute. reflexivity.
  - vm_compute. apply list_elem_of_In. simpl. auto.
Defined.

(** ** A pass without matches *)




(** ** The layout of a report *)

Lemma match_loop_output_prefix P tp total fuel i (st st' : pass_state) :
  match_loop P tp fuel i total st = inl st' →
  ∃ more, output st' = output st ++ more.
Proof.
  revert i st. induction fuel as [|fuel IH]; intros i st; cbn [match_loop].
  { intros [= <-]. exists []. by rewrite app_nil_r. }
  destruct (match_body P tp total i st) as [st1|] eqn:Hbody; [|discriminate].
  intros (more & ->)%IH.
  assert (∃ more1, output st1 = output st ++ more1) as (more1 & ->).
  { destruct (find_handle_loop (length (end_array st)) 0
                (xHandle (start_array st !!! i)) (end_array st)) as [k|] eqn:Hfind.
    - destruct (decide (wrap32 (total * P) = 0%Z)) as [Hz|Hnz].
      { destruct (match_body_matched_zero P tp total i k st Hz Hfind)
          as (f & st0 & Hzero & _).
        rewrite Hzero in Hbody. discriminate Hbody. }
      rewrite (match_body_matched_nz P tp total i k st Hnz Hfind) in Hbody.
      cbv zeta in Hbody.
      destruct (get_accumulated_info _ _); [|discriminate].
      injection Hbody as <-. cbn [output]. eauto.
    - rewrite (match_body_unmatched P tp total i st Hfind) in Hbody.
      injection Hbody as <-. exists []. by rewrite app_nil_r. }
  exists (more1 ++ more). by rewrite app_assoc.
Qed.

(** X15. The report of a pass that returns [ESP_OK] over captures of live tasks
    starts with the header; its verdicts are the rows of the matched entries
    in start-capture order, then the deleted entries in start-capture order,
    then the created entries in end-capture order. *)
Theorem report_layout
    (P : Z) (tp : trap_point)
    (start_cap end_cap : capture) (s s' : table) (out : list event) :
  handles_wf (task_array start_cap) → handles_wf (task_array end_cap) →
  print_real_time_stats P tp start_cap end_cap s = (Returned ESP_OK, s', out) →
  head out = Some PrintHeader
  ∧ verdicts out
    = omap (λ i, Matched i <$> partner (task_array end_cap)
                                 (xHandle (task_array start_cap !!! i)))
        (seq 0 (length (task_array start_cap)))
      ++ omap (λ i, if decide (xHandle (task_array start_cap !!! i)
                               ∈ xHandle <$> task_array end_cap)
                    then None else Some (Ended i))
           (seq 0 (length (task_array start_cap)))
      ++ omap (λ k, if decide (xHandle (task_array end_cap !!! k)
                               ∈ xHandle <$> task_array start_cap)
                    then None else Some (Created k))
           (seq 0 (length (task_array end_cap))).
Proof.
  intros HS HE Hrun.
  split; [|by apply (print_real_time_stats_verdicts P tp start_cap end_cap s s')].
  revert Hrun. unfold print_real_time_stats.
  destruct (negb (malloc_ok start_cap)); [discriminate|].
  destruct (length (task_array start_cap) =? 0)%nat; [discriminate|].
  destruct (negb (malloc_ok end_cap)); [discriminate|].
  destruct (length (task_array end_cap) =? 0)%nat; [discriminate|].
  destruct (wrap32 (run_time end_cap - run_time start_cap) =? 0)%Z; [discriminate|].
  destruct (match_loop _ _ _ _ _ _) as [st|[f st]] eqn:Hloop; [|discriminate].
  apply match_loop_output_prefix in Hloop as (more & Hout). cbn [output] in Hout.
  intros (_ & _ & <-)%triple_inj. rewrite Hout. reflexivity.
Qed.

Lemma report_layout_witness :
  let out := (print_real_time_stats 2 TrapAtDivision
                (captured [task 11 101 1000; task 12 102 500] 0)
                (captured [task 11 101 1400; task 13 102 900] 1000)
                initial_table).2 in
  head out = Some PrintHeader
  ∧ verdicts out = [Matched 0 0; Ended 1; Created 1].
Proof.
  intros out.
  apply (report_layout 2 TrapAtDivision
           (captured [task 11 101 1000; task 12 102 500] 0)
           (captured [task 11 101 1400; task 13 102 900] 1000)
           initial_table
           (print_real_time_stats 2 TrapAtDivision
              (captured [task 11 101 1000; task 12 102 500] 0)
              (captured [task 11 101 1400; task 13 102 900] 1000)
              initial_table).1.2
           out).
  - unfold handles_wf. apply (bool_decide_unpack _). vm_compute. exact I.
  - unfold handles_wf. apply (bool_decide_unpack _). vm_compute. exact I.
  - vm_compute. reflexivity.
Defined.

(** * More on the stopwatch *)

Lemma wrap_int64_range z :
  (- 2 ^ 63 ≤ Stopwatch.wrap_int64 z < 2 ^ 63)%Z.
Proof.
  unfold Stopwatch.wrap_int64.
  pose proof (Z.mod_pos_bound (z + 2 ^ 63) (2 ^ 64) ltac:(lia)). lia.
Qed.

Lemma wrap_int64_small z :
  (- 2 ^ 63 ≤ z < 2 ^ 63)%Z → Stopwatch.wrap_int64 z = z.
Proof.
  intros Hz. unfold Stopwatch.wrap_int64. rewrite Z.mod_small by lia. lia.
Qed.

Lemma wrap_int64_add_r a b :
  Stopwatch.wrap_int64 (a + Stopwatch.wrap_int64 b) = Stopwatch.wrap_int64 (a + b).
Proof.
  unfold Stopwatch.wrap_int64. f_equal.
  replace (a + ((b + 2 ^ 63) mod 2 ^ 64 - 2 ^ 63) + 2 ^ 63)%Z
    with (a + (b + 2 ^ 63) mod 2 ^ 64)%Z by lia.
  rewrite Zplus_mod_idemp_r. f_equal. lia.
Qed.

Lemma wrap_int64_add_l a b :
  Stopwatch.wrap_int64 (Stopwatch.wrap_int64 a + b) = Stopwatch.wrap_int64 (a + b).
Proof. rewrite (Z.add_comm _ b), wrap_int64_add_r. f_equal. lia. Qed.

(** X16. Measuring a list of intervals on a stopped handler, each by
    [stats_run_time_start] and [stats_run_time_stop], logs nothing and leaves
    the handler stopped with its time increased by the sum of the intervals
    ([int64_t] arithmetic; the plain sum when it fits), its start field the
    beginning of the last interval and its name unchanged. *)
Theorem stopwatch_cycles_accumulate
    (cycles : list (Z * Z)) (h : Stopwatch.stats_run_time_t) :
  Stopwatch.state h = Stopwatch.STATS_MEASURE_STOP →
  (- 2 ^ 63 ≤ Stopwatch.time h < 2 ^ 63)%Z →
  measure_cycles cycles (Some h)
  = (Some {| Stopwatch.name := Stopwatch.name h;
             Stopwatch.time :=
               Stopwatch.wrap_int64 (Stopwatch.time h + total_duration cycles);
             Stopwatch.start := default (Stopwatch.start h) (last (fst <$> cycles));
             Stopwatch.state := Stopwatch.STATS_MEASURE_STOP |},
     [])
  ∧ ((- 2 ^ 63 ≤ Stopwatch.time h + total_duration cycles < 2 ^ 63)%Z →
     Stopwatch.wrap_int64 (Stopwatch.time h + total_duration cycles)
     = (Stopwatch.time h + total_duration cycles)%Z).
Proof.
  intros Hstate Hrange. split; [|apply wrap_int64_small].
  revert h Hstate Hrange. induction cycles as [|[t1 t2] rest IH]; intros h Hstate Hrange.
  - cbn [measure_cycles total_duration foldr fmap list_fmap last default].
    rewrite Z.add_0_r, wrap_int64_small by exact Hrange.
    destruct h; simpl in *. by subst.
  - cbn [measure_cycles]. unfold Stopwatch.stats_run_time_start at 1.
    rewrite Hstate. cbn [Stopwatch.state_eqb].
    unfold Stopwatch.stats_run_time_stop at 1.
    cbn [Stopwatch.state Stopwatch.state_eqb Stopwatch.name Stopwatch.time
           Stopwatch.start].
    rewrite IH; [| reflexivity | apply wrap_int64_range].
    cbn [Stopwatch.name Stopwatch.time Stopwatch.start app].
    f_equal. f_equal. f_equal.
    + cbn [total_duration foldr fst snd].
      fold (total_duration rest).
      rewrite wrap_int64_add_l.
      replace (Stopwatch.time h + Stopwatch.wrap_int64 (t2 - t1) + total_duration rest)%Z
        with (Stopwatch.time h + total_duration rest + Stopwatch.wrap_int64 (t2 - t1))%Z
        by lia.
      rewrite wrap_int64_add_r. f_equal. lia.
    + cbn [fmap list_fmap fst]. fold (fmap (M := list) (@fst Z Z) rest).
      destruct rest as [|c rest']; [reflexivity|].
      cbn [fmap list_fmap]. rewrite !last_cons.
      by destruct (last rest'.*1).
Qed.

Lemma stopwatch_cycles_accumulate_witness :
  measure_cycles [(10, 25); (40, 47)]%Z
    (Some {| Stopwatch.name := "t"; Stopwatch.time := 3; Stopwatch.start := 0;
             Stopwatch.state := Stopwatch.STATS_MEASURE_STOP |})
  = (Some {| Stopwatch.name := "t";
             Stopwatch.time := Stopwatch.wrap_int64 (3 + total_duration [(10, 25); (40, 47)]%Z);
             Stopwatch.start := 40;
             Stopwatch.state := Stopwatch.STATS_MEASURE_STOP |}, [])
  ∧ Stopwatch.wrap_int64 (3 + total_duration [(10, 25); (40, 47)]%Z) = 25%Z.
Proof.
  pose proof (stopwatch_cycles_accumulate [(10, 25); (40, 47)]%Z
                {| Stopwatch.name := "t"; Stopwatch.time := 3; Stopwatch.start := 0;
                   Stopwatch.state := Stopwatch.STATS_MEASURE_STOP |}
                eq_refl ltac:(simpl; lia)) as [Hrun Hplain].
  split; [exact Hrun|].
  etransitivity; [apply Hplain; vm_compute; split; [discriminate | reflexivity] | reflexivity].
Defined.

(** X17. A second [stats_run_time_start] before the stop is refused with one
    logged error and does not move the start time: the stop that follows adds
    the time since the first start. *)
Theorem restart_is_ignored (t1 t1' t2 : Z) (h : Stopwatch.stats_run_time_t) :
  Stopwatch.state h = Stopwatch.STATS_MEASURE_STOP →
  let '(h1, l1) := Stopwatch.stats_run_time_start t1 (Some h) in
  let '(h2, l2) := Stopwatch.stats_run_time_start t1' h1 in
  let '(h3, l3) := Stopwatch.stats_run_time_stop t2 h2 in
  h3 = Some {| Stopwatch.name := Stopwatch.name h;
               Stopwatch.time :=
                 Stopwatch.wrap_int64
                   (Stopwatch.time h + Stopwatch.wrap_int64 (t2 - t1));
               Stopwatch.start := t1;
               Stopwatch.state := Stopwatch.STATS_MEASURE_STOP |}
  ∧ l1 ++ l2 ++ l3 = [Log LOGE "run time measurement is already started"].
Proof.
  intros Hstate. unfold Stopwatch.stats_run_time_start at 1. rewrite Hstate.
  cbn. done.
Qed.

Lemma restart_is_ignored_witness :
  (Stopwatch.stats_run_time_stop 30
     (Stopwatch.stats_run_time_start 20
        (Stopwatch.stats_run_time_start 10
           (Some {| Stopwatch.name := "t"; Stopwatch.time := 3; Stopwatch.start := 0;
                    Stopwatch.state := Stopwatch.STATS_MEASURE_STOP |})).1).1).1
  = Some {| Stopwatch.name := "t";
            Stopwatch.time := Stopwatch.wrap_int64 (3 + Stopwatch.wrap_int64 (30 - 10));
            Stopwatch.start := 10;
            Stopwatch.state := Stopwatch.STATS_MEASURE_STOP |}.
Proof.
  pose proof (restart_is_ignored 10 20 30
                {| Stopwatch.name := "t"; Stopwatch.time := 3; Stopwatch.start := 0;
                   Stopwatch.state := Stopwatch.STATS_MEASURE_STOP |} eq_refl) as H.
  exact (proj1 H).
Defined.
